(** * Wireframe VAE (src/vae/vae_wireframe.py): shapes, masking and loss composition

    The development has two layers.

    - [Shape]: a shape semantics of the encode / decode / prediction-head
      pipeline.  Every tensor is abstracted to its shape (a list of axis
      sizes) and every operation either yields the shape of its result or
      fails ([None]) where the Python code raises.
    - the value layer ([loss], [forward]): tensors are nested lists of real
      numbers; the learned sub-networks are callables carried by a record.

    Scalars are idealised as real numbers: rounding and the non-finite
    values of IEEE arithmetic are outside the value layer, and the mean of
    an empty selection (nan in the program) is not represented there.  The
    zeroing of the KL term, whose outcome depends on whether the KL value is
    finite, is also modelled in single precision ([F32]). *)

From Stdlib Require Import String List Arith Lia Bool ZArith Reals Lra.
From Corelib Require Import SpecFloat.
Import ListNotations.

Set Implicit Arguments.

(** ** Error monad on [option] *)

Definition bind {A B : Type} (o : option A) (k : A -> option B) : option B :=
  match o with
  | Some a => k a
  | None => None
  end.

Notation "x <- c ;; k" := (bind c (fun x => k))
  (at level 61, c at next level, right associativity).

Definition assert (b : bool) : option unit := if b then Some tt else None.

(** ** Configuration: the arguments of [AutoencoderKLWireframe.__init__] *)

Record Config := {
  latent_channels : nat;
  max_col_diff : nat;
  max_row_diff : nat;
  attn_encoder_depth : nat;
  attn_decoder_self_depth : nat;
  attn_decoder_cross_depth : nat;
  attn_dim : nat;
  num_heads : nat;
  max_curves_num : nat;
  wireframe_latent_num : nat;
  label_smoothing : R;
  cls_loss_weight : R;
  segment_loss_weight : R;
  col_diff_loss_weight : R;
  row_diff_loss_weight : R;
  curve_latent_loss_weight : R;
  kl_loss_weight : R;
  curve_latent_embed_dim : nat;
  use_mlp_predict : bool;
  use_focal_loss : bool;
  use_latent_pos_emb : bool
}.

(** The default arguments of [__init__]. *)
Definition default_config : Config := {|
  latent_channels := 8;
  max_col_diff := 6;
  max_row_diff := 32;
  attn_encoder_depth := 4;
  attn_decoder_self_depth := 6;
  attn_decoder_cross_depth := 2;
  attn_dim := 512;
  num_heads := 8;
  max_curves_num := 128;
  wireframe_latent_num := 64;
  label_smoothing := 5 / 1000;
  cls_loss_weight := 1;
  segment_loss_weight := 1;
  col_diff_loss_weight := 1;
  row_diff_loss_weight := 1;
  curve_latent_loss_weight := 1;
  kl_loss_weight := 2 / 10000;
  curve_latent_embed_dim := 256;
  use_mlp_predict := false;
  use_focal_loss := false;
  use_latent_pos_emb := false
|}.

(** ** Shape semantics *)

Module Shape.

Definition shape := list nat.

(** *** Tensor primitives *)

(** [nn.Linear(in_features, out_features)]: the last axis must have size
    [in_features] and is replaced by [out_features]. *)
Definition linear (in_features out_features : nat) (s : shape) : option shape :=
  match rev s with
  | d :: r => if d =? in_features then Some (rev (out_features :: r)) else None
  | [] => None
  end.

(** [nn.Embedding(_, dim)] applied to an index tensor appends one axis.
    This is the shape of the result only: whether the look-up raises depends
    on the indices, which a shape does not carry; [offsets_shape] below
    tests them, and [encode_with_offsets], [forward_with_offsets] and
    [FastEncode_forward_with_offsets] are the calls with that test. *)
Definition embedding (dim : nat) (s : shape) : shape := s ++ [dim].

(** [x[..., a:b]]: Python slicing clamps both ends to the axis. *)
Definition slice_len (a b w : nat) : nat := Nat.min b w - Nat.min a w.

Definition slice_last (a b : nat) (s : shape) : option shape :=
  match rev s with
  | w :: r => Some (rev (slice_len a b w :: r))
  | [] => None
  end.

(** [x[..., a:]]. *)
Definition slice_last_from (a : nat) (s : shape) : option shape :=
  match rev s with
  | w :: r => Some (rev ((w - Nat.min a w) :: r))
  | [] => None
  end.

(** [x[..., i]]: integer indexing drops the last axis and raises when [i]
    is out of range. *)
Definition index_last (i : nat) (s : shape) : option shape :=
  match rev s with
  | w :: r => if i <? w then Some (rev r) else None
  | [] => None
  end.

(** [x[:, 0]] on a rank-3 tensor. *)
Definition index_axis1_0 (s : shape) : option shape :=
  match s with
  | [b; n; d] => if 0 <? n then Some [b; d] else None
  | _ => None
  end.

(** [x[:, 1:]] on a rank-3 tensor. *)
Definition slice_axis1_from1 (s : shape) : option shape :=
  match s with
  | [b; n; d] => Some [b; n - Nat.min 1 n; d]
  | _ => None
  end.

(** Broadcasting of two shapes, aligned on the last axis: two sizes are
    compatible when they are equal or one of them is 1. *)
Definition broadcast_dim (x y : nat) : option nat :=
  if x =? y then Some x
  else if x =? 1 then Some y
  else if y =? 1 then Some x
  else None.

Fixpoint broadcast_rev (a b : list nat) : option (list nat) :=
  match a, b with
  | [], _ => Some b
  | _, [] => Some a
  | x :: a', y :: b' =>
      d <- broadcast_dim x y ;;
      r <- broadcast_rev a' b' ;;
      Some (d :: r)
  end.

Definition broadcast (a b : shape) : option shape :=
  option_map (@rev nat) (broadcast_rev (rev a) (rev b)).

(** *** einops patterns used by the code *)

(** ['b nl (nlv d) -> b nl nlv d'] with [nlv = 2]. *)
Definition split_endpoints (s : shape) : option shape :=
  match s with
  | [b; nl; w] => if w mod 2 =? 0 then Some [b; nl; 2; w / 2] else None
  | _ => None
  end.

(** ['b nl nlv d -> (b nl nlv) d']. *)
Definition flatten_points (s : shape) : option shape :=
  match s with
  | [b; nl; nlv; d] => Some [b * nl * nlv; d]
  | _ => None
  end.

(** ['(b nl nlv) d -> b nl nlv d'] with [b = bs] and [nlv = 2]: the free
    axis [nl] is the quotient, which must be exact. *)
Definition unflatten_points (bs : nat) (s : shape) : option shape :=
  match s with
  | [m; d] =>
      if bs * 2 =? 0 then None
      else if m mod (bs * 2) =? 0 then Some [bs; m / (bs * 2); 2; d]
      else None
  | _ => None
  end.

(** ['b nl nlv d -> b nl (nlv d)']. *)
Definition merge_endpoints (s : shape) : option shape :=
  match s with
  | [b; nl; nlv; d] => Some [b; nl; nlv * d]
  | _ => None
  end.

(** ['b n d -> b d n'] (and ['b d n -> b n d'], ['b nwl d -> b d nwl']). *)
Definition swap_last_two (s : shape) : option shape :=
  match s with
  | [b; n; d] => Some [b; d; n]
  | _ => None
  end.

(** ['b n c -> b (n c)']. *)
Definition merge_last_two (s : shape) : option shape :=
  match s with
  | [b; n; c] => Some [b; n * c]
  | _ => None
  end.

(** ['n d -> b n d'] with the given [b]. *)
Definition repeat_batch (b : nat) (s : shape) : option shape :=
  match s with
  | [n; d] => Some [b; n; d]
  | _ => None
  end.

(** [x.unsqueeze(-1)]. *)
Definition unsqueeze_last (s : shape) : shape := s ++ [1].

(** [pack([t1; ...], 'b nl *')] on rank-3 tensors: the leading two axes
    must agree, the last axes are concatenated. *)
Fixpoint pack_b_nl (ts : list shape) : option shape :=
  match ts with
  | [] => None
  | [t] => match t with [b; nl; d] => Some t | _ => None end
  | t :: rest =>
      match t, pack_b_nl rest with
      | [b; nl; d], Some [b'; nl'; d'] =>
          if (b =? b') && (nl =? nl') then Some [b; nl; d + d'] else None
      | _, _ => None
      end
  end.

(** *** External collaborators *)

(** Modelled from the spec: [PointEmbed] (src/vae/modules.py) is not in the
    source tree.  It maps every 3-vector of a list of points to an embedding
    of the configured width. *)
Definition point_embed (dim : nat) (s : shape) : option shape :=
  match s with
  | [m; d] => if d =? 3 then Some [m; dim] else None
  | _ => None
  end.

(** Modelled from the spec: the cross-attention block built by
    [AttentionLayerFactory] (src/vae/modules.py) is not in the source tree.
    Queries [x] of width [dim] attend over a context of the same batch and
    width; an optional context mask has one entry per context position.
    The result has the shape of the queries. *)
Definition cross_attn (dim : nat) (x context : shape) (context_mask : option shape)
  : option shape :=
  match x, context with
  | [b; n; d], [b'; m; d'] =>
      _ <- assert ((b =? b') && (d =? dim) && (d' =? dim)) ;;
      _ <- match context_mask with
           | None => Some tt
           | Some [bm; mm] => assert ((bm =? b') && (mm =? m))
           | Some _ => None
           end ;;
      Some [b; n; d]
  | _, _ => None
  end.

(** Modelled from the spec: the self-attention stack built by
    [AttentionLayerFactory] keeps the shape of a sequence of width [dim]. *)
Definition self_attn (dim : nat) (x : shape) : option shape :=
  match x with
  | [b; n; d] => if d =? dim then Some x else None
  | _ => None
  end.

(** Modelled from the spec: [DiagonalGaussianDistribution] (diffusers) splits
    the moments along axis 1 into a mean half and a log-variance half. *)
Record posterior_shape := { mean_shape : shape; logvar_shape : shape }.

Definition diagonal_gaussian (moments : shape) : option posterior_shape :=
  match moments with
  | [b; c; n] =>
      if c mod 2 =? 0
      then Some {| mean_shape := [b; c / 2; n]; logvar_shape := [b; c / 2; n] |}
      else None
  | _ => None
  end.

(** *** [Encoder1D] *)

Record Encoder1D := {
  enc_out_channels : nat;
  coor_embed_dim : nat;
  enc_max_col_diff : nat;
  enc_max_row_diff : nat;
  col_diff_embed_dim : nat;
  row_diff_embed_dim : nat;
  enc_max_curves_num : nat;
  curve_latent_channels : nat;
  enc_curve_latent_embed_dim : nat;
  enc_attn_dim : nat;
  double_z : bool;
  enc_wireframe_latent_num : nat
}.

(** [Encoder1D.forward]. *)
Definition Encoder1D_forward (e : Encoder1D) (xs flag_diffs : shape) : option shape :=
  bs <- hd_error xs ;;
  line_coords <- slice_last 0 6 xs ;;
  points <- split_endpoints line_coords ;;
  points <- flatten_points points ;;
  line_coor_embed <- point_embed (coor_embed_dim e * 3) points ;;
  line_coor_embed <- unflatten_points bs line_coor_embed ;;
  line_coor_embed <- merge_endpoints line_coor_embed ;;
  flag0 <- index_last 0 flag_diffs ;;
  let flag := unsqueeze_last flag0 in
  diffs <- slice_last_from 1 flag_diffs ;;
  col_diff <- index_last 0 diffs ;;
  row_diff <- index_last 1 diffs ;;
  let col_diff_embed := embedding (col_diff_embed_dim e) col_diff in
  let row_diff_embed := embedding (row_diff_embed_dim e) row_diff in
  curve_latent <- slice_last_from 6 xs ;;
  curve_latent_embed <-
    linear (curve_latent_channels e) (enc_curve_latent_embed_dim e) curve_latent ;;
  wire_embed <-
    pack_b_nl [line_coor_embed; col_diff_embed; row_diff_embed; curve_latent_embed] ;;
  let init_dim := coor_embed_dim e * 6 + col_diff_embed_dim e
                  + row_diff_embed_dim e + enc_curve_latent_embed_dim e in
  wire_embed <- linear init_dim (enc_attn_dim e) wire_embed ;;
  (* self.pos_emb + wire_embed *)
  wire_embed <- broadcast [enc_max_curves_num e; enc_attn_dim e] wire_embed ;;
  b' <- hd_error wire_embed ;;
  enc_learnable_query <-
    repeat_batch b' [enc_wireframe_latent_num e; enc_attn_dim e] ;;
  context_padding_mask <- merge_last_two flag ;;
  wireframe_latent_embed <-
    cross_attn (enc_attn_dim e) enc_learnable_query wire_embed
               (Some context_padding_mask) ;;
  linear (enc_attn_dim e)
         (if double_z e then 2 * enc_out_channels e else enc_out_channels e)
         wireframe_latent_embed.

(** *** [Decoder1D] *)

Record Decoder1D := {
  dec_in_channels : nat;
  dec_attn_dim : nat;
  dec_max_curves_num : nat;
  dec_wireframe_latent_num : nat;
  dec_use_latent_pos_emb : bool
}.

(** [Decoder1D.forward]. *)
Definition Decoder1D_forward (d : Decoder1D) (zs : shape) : option shape :=
  bs <- hd_error zs ;;
  wireframe_latent <- linear (dec_in_channels d) (dec_attn_dim d) zs ;;
  wireframe_latent <-
    (if dec_use_latent_pos_emb d
     then broadcast [dec_wireframe_latent_num d; dec_attn_dim d] wireframe_latent
     else Some wireframe_latent) ;;
  wireframe_latent <- self_attn (dec_attn_dim d) wireframe_latent ;;
  query_embed <- repeat_batch bs [1 + dec_max_curves_num d; dec_attn_dim d] ;;
  query_embed <- cross_attn (dec_attn_dim d) query_embed wireframe_latent None ;;
  linear (dec_attn_dim d) (dec_attn_dim d) query_embed.

(** *** [AutoencoderKLWireframe] *)

(** The encoder as [__init__] builds it: the arguments it does not pass keep
    the defaults of [Encoder1D.__init__]. *)
Definition encoder_of (c : Config) : Encoder1D := {|
  enc_out_channels := latent_channels c;
  coor_embed_dim := 128;
  enc_max_col_diff := 6;
  enc_max_row_diff := 32;
  col_diff_embed_dim := 16;
  row_diff_embed_dim := 32;
  enc_max_curves_num := max_curves_num c;
  curve_latent_channels := 12;
  enc_curve_latent_embed_dim := curve_latent_embed_dim c;
  enc_attn_dim := attn_dim c;
  double_z := true;
  enc_wireframe_latent_num := wireframe_latent_num c
|}.

(** The decoder as [__init__] builds it: [wireframe_latent_num] is not
    passed and keeps the default 64 of [Decoder1D.__init__]. *)
Definition decoder_of (c : Config) : Decoder1D := {|
  dec_in_channels := latent_channels c;
  dec_attn_dim := attn_dim c;
  dec_max_curves_num := max_curves_num c;
  dec_wireframe_latent_num := 64;
  dec_use_latent_pos_emb := use_latent_pos_emb c
|}.

(** [AutoencoderKLWireframe.encode]: the shapes of the posterior. *)
Definition encode (c : Config) (xs flag_diffs : shape) : option posterior_shape :=
  h <- Encoder1D_forward (encoder_of c) xs flag_diffs ;;
  moments <- linear (2 * latent_channels c) (2 * latent_channels c) h ;;
  moments <- swap_last_two moments ;;
  diagonal_gaussian moments.

(** [_decode]. *)
Definition _decode (c : Config) (zs : shape) : option shape :=
  zs <- swap_last_two zs ;;
  zs <- linear (latent_channels c) (latent_channels c) zs ;;
  Decoder1D_forward (decoder_of c) zs.

(** [decode]: the shape of [.sample]. *)
Definition decode (c : Config) (z : shape) : option shape :=
  _decode c z.

(** The prediction bundle. *)
Record preds_shape := {
  cls_shape : shape;
  segments_shape : shape;
  diffs_shape : shape;
  curve_latent_shape : shape
}.

(** The width of [self.predict_features] in the linear strategy,
    [out_dim = 6 + 6 + 32 + 12]. *)
Definition out_dim : nat := 6 + 6 + 32 + 12.

Definition last_dim (s : shape) : nat := last s 0.

(** [linear_predict], with its three assertions. *)
Definition linear_predict (c : Config) (dec : shape) : option preds_shape :=
  let num_segments := 6 in
  let num_diffs := num_segments + max_col_diff c + max_row_diff c in
  cls_token <- index_axis1_0 dec ;;
  pred_cls_logits <- linear (attn_dim c) (max_curves_num c) cls_token ;;
  features_tokens <- slice_axis1_from1 dec ;;
  pred_features_logits <- linear (attn_dim c) out_dim features_tokens ;;
  pred_segments <- slice_last 0 num_segments pred_features_logits ;;
  _ <- assert (last_dim pred_segments =? num_segments) ;;
  pred_diffs_logits <- slice_last num_segments num_diffs pred_features_logits ;;
  _ <- assert (last_dim pred_diffs_logits =? max_col_diff c + max_row_diff c) ;;
  pred_curve_latent <- slice_last_from num_diffs pred_features_logits ;;
  _ <- assert (last_dim pred_curve_latent =? 12) ;;
  Some {| cls_shape := pred_cls_logits;
          segments_shape := pred_segments;
          diffs_shape := pred_diffs_logits;
          curve_latent_shape := pred_curve_latent |}.

(** Modelled from the spec: [MLP] (src/vae/modules.py) is not in the source
    tree; a feed-forward head maps the last axis from [in_dim] to
    [out_dim]. *)
Definition mlp (in_dim out_dim : nat) (s : shape) : option shape :=
  linear in_dim out_dim s.

(** [mlp_predict]. *)
Definition mlp_predict (c : Config) (dec : shape) : option preds_shape :=
  cls_token <- index_axis1_0 dec ;;
  features_tokens <- slice_axis1_from1 dec ;;
  pred_cls_logits <- mlp (attn_dim c) (max_curves_num c) cls_token ;;
  pred_segments <- mlp (attn_dim c) 6 features_tokens ;;
  pred_diffs_logits <-
    mlp (attn_dim c) (max_col_diff c + max_row_diff c) features_tokens ;;
  pred_curve_latent <- mlp (attn_dim c) 12 features_tokens ;;
  Some {| cls_shape := pred_cls_logits;
          segments_shape := pred_segments;
          diffs_shape := pred_diffs_logits;
          curve_latent_shape := pred_curve_latent |}.

Definition predict (c : Config) (dec : shape) : option preds_shape :=
  if use_mlp_predict c then mlp_predict c dec else linear_predict c dec.

(** *** [AutoencoderKLWireframeFastDecode] *)

(** What [AutoencoderKLWireframeFastDecode.forward] returns: the one-element
    tuple [(dec,)] or the prediction dictionary with the keys ['cls'],
    ['segments'], ['diffs'] and ['curve_latent']. *)
Inductive fast_decode_result :=
| TupleOfDec (dec : shape)
| PredsDict (preds : preds_shape).

(** [AutoencoderKLWireframeFastDecode.forward].  The sub-modules are built
    by [__init__] exactly as in the full model ([decoder_of], the heads and
    [post_quant_proj]). *)
Definition FastDecode_forward (c : Config) (zs : shape) (return_dict : bool)
  : option fast_decode_result :=
  zs <- swap_last_two zs ;;
  dec <- decode c zs ;;
  preds <- predict c dec ;;
  if negb return_dict then Some (TupleOfDec dec) else Some (PredsDict preds).

(** *** [AutoencoderKLWireframe.forward] and [AutoencoderKLWireframeFastEncode] *)

(** [torch.cat([a, b], dim=1)] on rank-3 tensors: the other axes must agree. *)
Definition cat_dim1 (a b : shape) : option shape :=
  match a, b with
  | [ba; ca; na], [bb; cb; nb] =>
      if (ba =? bb) && (na =? nb) then Some [ba; ca + cb; na] else None
  | _, _ => None
  end.

(** The prediction path of [AutoencoderKLWireframe.forward] (lines 548-579):
    the shapes of the prediction bundle.  [posterior.mode()] and
    [posterior.sample()] both have the shape of the mean. *)
Definition AutoencoderKLWireframe_forward (c : Config) (xs flag_diffs : shape)
  : option preds_shape :=
  flags <- index_last 0 flag_diffs ;;
  xs18 <- slice_last 0 18 xs ;;
  posterior <- encode c xs18 flag_diffs ;;
  segment_coords <- slice_last 0 6 xs ;;
  let z := mean_shape posterior in
  dec <- decode c z ;;
  predict c dec.

(** [AutoencoderKLWireframeFastEncode.forward]: its [encode] and the
    sub-modules built by its [__init__] are those of the full model
    ([encoder_of], [quant_proj]).  [posterior.std] has the shape of the
    log-variance. *)
Definition FastEncode_forward (c : Config) (xs flag_diffs : shape) (return_std : bool)
  : option shape :=
  xs18 <- slice_last 0 18 xs ;;
  posterior <- encode c xs18 flag_diffs ;;
  let mu := mean_shape posterior in
  if return_std
  then (let std := logvar_shape posterior in cat_dim1 mu std)
  else Some mu.

End Shape.

(** ** Value layer: tensors as nested lists of reals *)

Local Open Scope R_scope.

Definition Tensor1 := list R.
Definition Tensor2 := list (list R).
Definition Tensor3 := list (list (list R)).

(** A boolean mask over (batch, segment). *)
Definition Mask := list (list bool).

(** One position of the integer tensor [flag_diffs] (last axis [1+2]):
    validity flag, column offset, row offset. *)
Record FlagDiff := { flag : Z; col_diff : Z; row_diff : Z }.

Definition FlagDiffs := list (list FlagDiff).

(** *** Element-wise operations and boolean-mask indexing *)

(** Element-wise combination of two lists of equal length; unequal lengths
    are an error (broadcasting of a size-1 axis is not modelled). *)
Fixpoint zipE {A B C : Type} (f : A -> B -> option C) (l1 : list A) (l2 : list B)
  : option (list C) :=
  match l1, l2 with
  | [], [] => Some []
  | a :: l1', b :: l2' =>
      c <- f a b ;;
      r <- zipE f l1' l2' ;;
      Some (c :: r)
  | _, _ => None
  end.

Definition map2E {A B C : Type} (f : A -> B -> C) : list A -> list B -> option (list C) :=
  zipE (fun a b => Some (f a b)).

Definition tensor2_zip {A B C : Type} (f : A -> B -> C)
  : list (list A) -> list (list B) -> option (list (list C)) :=
  zipE (map2E f).

Definition tensor3_zip {A B C : Type} (f : A -> B -> C)
  : list (list (list A)) -> list (list (list B)) -> option (list (list (list C))) :=
  zipE (tensor2_zip f).

Definition tensor3_map {A B : Type} (f : A -> B) : list (list (list A)) -> list (list (list B)) :=
  map (map (map f)).

(** [t[mask]]: the selected elements in row-major order; the mask must have
    the shape of the tensor. *)
Fixpoint select_with {A M B : Type} (f : A -> M -> option (list B))
  (t : list A) (m : list M) : option (list B) :=
  match t, m with
  | [], [] => Some []
  | a :: t', b :: m' =>
      x <- f a b ;;
      y <- select_with f t' m' ;;
      Some (x ++ y)
  | _, _ => None
  end.

Definition select1 {A : Type} : list A -> list bool -> option (list A) :=
  select_with (fun a (b : bool) => Some (if b then [a] else [])).

Definition select2 {A : Type} : list (list A) -> list (list bool) -> option (list A) :=
  select_with select1.

Definition select3 {A : Type}
  : list (list (list A)) -> list (list (list bool)) -> option (list A) :=
  select_with select2.

(** [repeat(xs_mask, 'b nl -> b nl r', r = r)]. *)
Definition repeat_mask (r : nat) (xs_mask : Mask) : list (list (list bool)) :=
  map (map (fun b => repeat b r)) xs_mask.

Definition Rsum (l : list R) : R := fold_right Rplus 0 l.

(** [.mean()] of a one-dimensional selection. *)
Definition Rmean (l : list R) : R := Rsum l / INR (length l).

Definition flatten3 (t : Tensor3) : list R := concat (map (@concat R) t).

(** [torch.nn.MSELoss(reduction='none')]. *)
Definition mse_loss_fn (input target : Tensor3) : option Tensor3 :=
  tensor3_zip (fun a b => (a - b) * (a - b)) input target.

(** [torch.clamp(x, lo, hi)]. *)
Definition clamp (lo hi x : R) : R := Rmin (Rmax x lo) hi.

(** [torch.linspace(a, b, steps)]. *)
Definition linspace (a b : R) (steps : nat) : list R :=
  map (fun i => a + INR i * ((b - a) / INR (steps - 1))) (seq 0 steps).

(** *** The model instance *)

(** The posterior ([DiagonalGaussianDistribution], diffusers). *)
Record Posterior := {
  mean : Tensor3;
  logvar : Tensor3;
  var : Tensor3;
  std : Tensor3
}.

Definition mode (p : Posterior) : Tensor3 := mean p.

(** The prediction bundle: the dictionary with keys ['cls'], ['segments'],
    ['diffs'], ['curve_latent']. *)
Record Preds := {
  cls : Tensor2;
  segments : Tensor3;
  diffs : Tensor3;
  curve_latent : Tensor3
}.

(** A random generator is identified by its seed. *)
Definition Generator := nat.

(** The callables of a model instance whose bodies are learned networks or
    live in src/vae/modules.py.

    Modelled from the spec: [ce_loss] and [FocalLoss] (src/vae/modules.py)
    are not in the source tree.  [ce_loss_mean] is [self.ce_loss] with
    [reduction='mean'] (logits, targets, label smoothing, number of
    classes); [ce_loss_elem] is what [self.ce_loss] with [reduction='none']
    computes at one position from the class logits and the target of that
    position (plus number of classes, label smoothing and class weights). *)
Record Submodules := {
  ce_loss_mean : Tensor2 -> list Z -> R -> nat -> R;
  ce_loss_elem : list R -> Z -> nat -> R -> list R -> R;
  run_encode : Tensor3 -> FlagDiffs -> option Posterior;
  run_sample : Posterior -> option Generator -> Tensor3;
  run_decode : Tensor3 -> option Tensor3;
  run_linear_predict : Tensor3 -> option Preds;
  run_mlp_predict : Tensor3 -> option Preds
}.

Record Model := {
  config : Config;
  net : Submodules;
  col_diff_class_weights : list R;
  row_diff_class_weights : list R;
  col_weights : list R
}.

(** The buffers registered by [__init__]. *)
Definition init (c : Config) (n : Submodules) : Model :=
  let col_diff_labels := linspace (-1) 1 (max_col_diff c) in
  let row_diff_labels := linspace (-1) 1 (max_row_diff c) in
  let t := linspace 0 2 (max_curves_num c) in
  {| config := c;
     net := n;
     col_diff_class_weights := map exp col_diff_labels;
     row_diff_class_weights := map exp row_diff_labels;
     col_weights := map (fun x => 1.2 - 0.2 * ln (x + 1.7183)) t |}.

(** *** [AutoencoderKLWireframe.loss] *)

Record Losses := {
  cls_ce_loss : R;
  segment_mse_loss : R;
  col_diff_ce_loss : R;
  row_diff_ce_loss : R;
  curve_latent_loss : R
}.

Definition sum_Z (l : list Z) : Z := fold_right Z.add 0%Z l.

(** [cls = gt_flag_diffs[..., 0].sum(dim=-1) - 1]. *)
Definition cls_target (gt_flag_diffs : FlagDiffs) : list Z :=
  map (fun item => (sum_Z (map flag item) - 1)%Z) gt_flag_diffs.

(** [xs_mask = flags > 0.5] on integer flags. *)
Definition is_valid (d : FlagDiff) : bool := (1 <? 2 * flag d)%Z.

Definition xs_mask_of (flag_diffs : FlagDiffs) : Mask := map (map is_valid) flag_diffs.

(** Lines 484-487: masked mean of the squared coordinate errors. *)
Definition segment_mse_loss_term (pred_segments gt_segment_coords : Tensor3)
  (xs_mask : Mask) : option R :=
  segment_mse <- mse_loss_fn pred_segments gt_segment_coords ;;
  let line_mask := repeat_mask 6 xs_mask in
  sel <- select3 segment_mse line_mask ;;
  Some (Rmean sel).

(** The logits are rearranged to ['b c (...)'] and split along the class
    axis into the first [max_col_diff] classes and the rest; the
    cross-entropy is then taken over the class axis at every position.  Here
    the class vector of one position is split directly; the width test of
    [split] is made at every position. *)
Definition col_logits (max_col : nat) (logits : list R) : option (list R) :=
  _ <- assert (max_col <=? length logits)%nat ;;
  Some (firstn max_col logits).

Definition row_logits (max_col : nat) (logits : list R) : option (list R) :=
  _ <- assert (max_col <=? length logits)%nat ;;
  Some (skipn max_col logits).

(** [self.ce_loss(pred_col_diff_logits, diffs[..., 0], ..., reduction='none')]. *)
Definition col_diff_ce (m : Model) (pred_diffs_logits : Tensor3)
  (gt_flag_diffs : FlagDiffs) : option Tensor2 :=
  let c := config m in
  zipE (zipE (fun logits d =>
          l <- col_logits (max_col_diff c) logits ;;
          Some (ce_loss_elem (net m) l (col_diff d) (max_col_diff c)
                  (label_smoothing c) (col_diff_class_weights m))))
       pred_diffs_logits gt_flag_diffs.

(** [self.ce_loss(pred_row_diff_logits, diffs[..., 1], ..., reduction='none')]. *)
Definition row_diff_ce (m : Model) (pred_diffs_logits : Tensor3)
  (gt_flag_diffs : FlagDiffs) : option Tensor2 :=
  let c := config m in
  zipE (zipE (fun logits d =>
          l <- row_logits (max_col_diff c) logits ;;
          Some (ce_loss_elem (net m) l (row_diff d) (max_row_diff c)
                  (label_smoothing c) (row_diff_class_weights m))))
       pred_diffs_logits gt_flag_diffs.

(** [(col_diff_ce_loss * col_weights)[xs_mask].mean()]. *)
Definition col_diff_ce_loss_term (m : Model) (bs : nat) (pred_diffs_logits : Tensor3)
  (gt_flag_diffs : FlagDiffs) (xs_mask : Mask) : option R :=
  ce <- col_diff_ce m pred_diffs_logits gt_flag_diffs ;;
  let col_weights_b := repeat (col_weights m) bs in
  weighted <- tensor2_zip Rmult ce col_weights_b ;;
  sel <- select2 weighted xs_mask ;;
  Some (Rmean sel).

(** [row_diff_ce_loss[xs_mask].mean()]. *)
Definition row_diff_ce_loss_term (m : Model) (pred_diffs_logits : Tensor3)
  (gt_flag_diffs : FlagDiffs) (xs_mask : Mask) : option R :=
  ce <- row_diff_ce m pred_diffs_logits gt_flag_diffs ;;
  sel <- select2 ce xs_mask ;;
  Some (Rmean sel).

(** Lines 520-524: weighted, masked mean of the squared latent errors. *)
Definition curve_latent_loss_term (pred_curve_latent_mu gt_curve_latent : Tensor3)
  (xs_mask : Mask) : option R :=
  let gt_curve_latent_std :=
    tensor3_map (clamp 0 1) (map (map (skipn 12)) gt_curve_latent) in
  let mu_weights :=
    tensor3_map (fun s => 1.2 - 0.5 * ln (s + 1.7183)) gt_curve_latent_std in
  let curve_latent_mask := repeat_mask 12 xs_mask in
  mse <- mse_loss_fn pred_curve_latent_mu (map (map (firstn 12)) gt_curve_latent) ;;
  weighted <- tensor3_zip Rmult mu_weights mse ;;
  sel <- select3 weighted curve_latent_mask ;;
  Some (Rmean sel).

(** [AutoencoderKLWireframe.loss]. *)
Definition loss (m : Model) (gt_segment_coords : Tensor3) (gt_flag_diffs : FlagDiffs)
  (gt_curve_latent : Tensor3) (xs_mask : Mask) (preds : Preds) : option Losses :=
  let c := config m in
  let bs := length (cls preds) in
  let target := cls_target gt_flag_diffs in
  let cls_ce := ce_loss_mean (net m) (cls preds) target
                  (label_smoothing c) (max_curves_num c) in
  segment_mse <- segment_mse_loss_term (segments preds) gt_segment_coords xs_mask ;;
  col_ce <- col_diff_ce_loss_term m bs (diffs preds) gt_flag_diffs xs_mask ;;
  row_ce <- row_diff_ce_loss_term m (diffs preds) gt_flag_diffs xs_mask ;;
  latent <- curve_latent_loss_term (curve_latent preds) gt_curve_latent xs_mask ;;
  Some {| cls_ce_loss := cls_ce;
          segment_mse_loss := segment_mse;
          col_diff_ce_loss := col_ce;
          row_diff_ce_loss := row_ce;
          curve_latent_loss := latent |}.

(** *** [AutoencoderKLWireframe.forward] *)

(** The dictionary [all_losses], in insertion order. *)
Definition LossDict := list (string * R).

Fixpoint dict_get (k : string) (d : LossDict) : option R :=
  match d with
  | [] => None
  | (k', v) :: d' => if String.eqb k k' then Some v else dict_get k d'
  end.

(** [d[k] = v]. *)
Fixpoint dict_set (k : string) (v : R) (d : LossDict) : LossDict :=
  match d with
  | [] => [(k, v)]
  | (k', v') :: d' =>
      if String.eqb k k' then (k, v) :: d' else (k', v') :: dict_set k v d'
  end.

(** [0.5 * torch.sum(mean^2 + var - 1.0 - logvar, dim=[1,2]).mean()]. *)
Definition kl_divergence (p : Posterior) : option R :=
  t <- tensor3_zip Rplus (tensor3_map (fun x => x * x) (mean p)) (var p) ;;
  let t := tensor3_map (fun x => x - 1) t in
  t <- tensor3_zip Rminus t (logvar p) ;;
  Some (0.5 * Rmean (map (fun item => Rsum (concat item)) t)).

(** What [forward] returns: the one-element tuple [(preds,)], the pair
    [(loss, all_losses)], or the prediction dictionary. *)
Inductive forward_result :=
| PredsTuple (preds : Preds)
| LossPair (total : R) (all_losses : LossDict)
| PredsDict (preds : Preds).

Definition forward (m : Model) (xs : Tensor3) (flag_diffs : FlagDiffs)
  (sample_posterior return_dict : bool) (generator : option Generator)
  (return_loss : bool) : option forward_result :=
  let c := config m in
  let xs_mask := xs_mask_of flag_diffs in
  posterior <- run_encode (net m) (map (map (firstn 18)) xs) flag_diffs ;;
  let segment_coords := map (map (firstn 6)) xs in
  let z := if sample_posterior
           then run_sample (net m) posterior generator
           else mode posterior in
  dec <- run_decode (net m) z ;;
  preds <- (if use_mlp_predict c
            then run_mlp_predict (net m) dec
            else run_linear_predict (net m) dec) ;;
  if negb return_dict then Some (PredsTuple preds)
  else if return_loss then
    kl_loss <- kl_divergence posterior ;;
    let kl_loss := if negb sample_posterior then 0 * kl_loss else kl_loss in
    l <- loss m segment_coords flag_diffs (map (map (skipn 6)) xs) xs_mask preds ;;
    let all_losses :=
      [ ("cls_ce_loss"%string, cls_ce_loss l);
        ("segment_mse_loss"%string, segment_mse_loss l);
        ("col_diff_ce_loss"%string, col_diff_ce_loss l);
        ("row_diff_ce_loss"%string, row_diff_ce_loss l);
        ("curve_latent_loss"%string, curve_latent_loss l);
        ("kl_loss"%string, kl_loss) ] in
    let new_kl_loss_weight := kl_loss_weight c in
    let total :=
      cls_loss_weight c * cls_ce_loss l
      + segment_loss_weight c * segment_mse_loss l
      + col_diff_loss_weight c * col_diff_ce_loss l
      + row_diff_loss_weight c * row_diff_ce_loss l
      + curve_latent_loss_weight c * curve_latent_loss l
      + new_kl_loss_weight * kl_loss in
    let all_losses :=
      dict_set "mu" (Rmean (flatten3 (tensor3_map Rabs (mean posterior)))) all_losses in
    let all_losses :=
      dict_set "std" (Rmean (flatten3 (std posterior))) all_losses in
    Some (LossPair total all_losses)
  else Some (PredsDict preds).

(** ** Definitions used by the statements *)

(** *** Zeroing the ground truth at masked positions *)

Definition zero_row (r : list R) : list R := map (fun _ => 0) r.

(** The offsets are zeroed; the flag, which defines the mask, is kept. *)
Definition zero_offsets (d : FlagDiff) : FlagDiff :=
  {| flag := flag d; col_diff := 0; row_diff := 0 |}.

(** Replace by [z a] every entry [a] whose mask bit is [false]. *)
Fixpoint zero_where {A : Type} (z : A -> A) (m : list bool) (l : list A) : list A :=
  match m, l with
  | b :: m', a :: l' => (if b then a else z a) :: zero_where z m' l'
  | _, _ => l
  end.

Fixpoint zero_invalid {A : Type} (z : A -> A) (mask : Mask) (t : list (list A))
  : list (list A) :=
  match mask, t with
  | mb :: mask', item :: t' => zero_where z mb item :: zero_invalid z mask' t'
  | _, _ => t
  end.

(** *** Agreement of two tensors relative to a mask *)



(** Equal where the position is valid. *)
Definition eq_if_valid {A : Type} (b : bool) (a a' : A) : Prop :=
  if b then a = a' else True.


(** *** Shapes of nested lists *)

Definition has_shape2 {A : Type} (b n : nat) (t : list (list A)) : Prop :=
  List.length t = b /\ Forall (fun item => List.length item = n) t.

Definition has_shape3 {A : Type} (b n c : nat) (t : list (list (list A))) : Prop :=
  List.length t = b /\ Forall (has_shape2 n c) t.

(** *** The segment-regression term as the specification words it *)

Definition sq_err (a b : R) : R := (a - b) * (a - b).

Definition sq_err_row (p g : list R) : list R :=
  map (fun pg => sq_err (fst pg) (snd pg)) (combine p g).

(** The squared errors of the valid positions of one batch item. *)
Fixpoint valid_sq_errors_item (pb gb : list (list R)) (mb : list bool) : list R :=
  match pb, gb, mb with
  | p :: pb', g :: gb', b :: mb' =>
      (if b then sq_err_row p g else []) ++ valid_sq_errors_item pb' gb' mb'
  | _, _, _ => []
  end.

(** The squared errors of all valid positions of the batch. *)
Fixpoint valid_sq_errors (pred gt : Tensor3) (mask : Mask) : list R :=
  match pred, gt, mask with
  | pb :: pred', gb :: gt', mb :: mask' =>
      valid_sq_errors_item pb gb mb ++ valid_sq_errors pred' gt' mask'
  | _, _, _ => []
  end.

Definition count_true (l : list bool) : nat := List.length (filter (fun b => b) l).

(** The number of valid segment positions of the batch. *)
Definition count_valid (mask : Mask) : nat :=
  fold_right Nat.add 0%nat (map count_true mask).

(** The flag is a bit. *)
Definition binary_flags (item : list FlagDiff) : Prop :=
  Forall (fun d => flag d = 0%Z \/ flag d = 1%Z) item.

(** *** Concrete instances *)

Definition fd (f c r : Z) : FlagDiff := {| flag := f; col_diff := c; row_diff := r |}.

(** The scenario of the specification: two batch items over four segment
    slots, with two and three valid segments. *)
Definition scenario_flag_diffs : FlagDiffs :=
  [ [fd 1 0 0; fd 1 1 0; fd 0 0 0; fd 0 0 0];
    [fd 1 0 0; fd 1 1 0; fd 1 2 1; fd 0 0 0] ].

Definition scenario_config : Config := {|
  latent_channels := 4;
  max_col_diff := 6;
  max_row_diff := 32;
  attn_encoder_depth := 4;
  attn_decoder_self_depth := 6;
  attn_decoder_cross_depth := 2;
  attn_dim := 512;
  num_heads := 8;
  max_curves_num := 4;
  wireframe_latent_num := 8;
  label_smoothing := 5 / 1000;
  cls_loss_weight := 1;
  segment_loss_weight := 1;
  col_diff_loss_weight := 1;
  row_diff_loss_weight := 1;
  curve_latent_loss_weight := 1;
  kl_loss_weight := 2 / 10000;
  curve_latent_embed_dim := 256;
  use_mlp_predict := false;
  use_focal_loss := false;
  use_latent_pos_emb := false
|}.

(** The scenario with the latent positional bias of the decoder enabled. *)
Definition pos_emb_config : Config := {|
  latent_channels := 4;
  max_col_diff := 6;
  max_row_diff := 32;
  attn_encoder_depth := 4;
  attn_decoder_self_depth := 6;
  attn_decoder_cross_depth := 2;
  attn_dim := 512;
  num_heads := 8;
  max_curves_num := 4;
  wireframe_latent_num := 8;
  label_smoothing := 5 / 1000;
  cls_loss_weight := 1;
  segment_loss_weight := 1;
  col_diff_loss_weight := 1;
  row_diff_loss_weight := 1;
  curve_latent_loss_weight := 1;
  kl_loss_weight := 2 / 10000;
  curve_latent_embed_dim := 256;
  use_mlp_predict := false;
  use_focal_loss := false;
  use_latent_pos_emb := true
|}.

(** The scenario with eight column-offset classes instead of six. *)
Definition wide_col_config : Config := {|
  latent_channels := 4;
  max_col_diff := 8;
  max_row_diff := 32;
  attn_encoder_depth := 4;
  attn_decoder_self_depth := 6;
  attn_decoder_cross_depth := 2;
  attn_dim := 512;
  num_heads := 8;
  max_curves_num := 4;
  wireframe_latent_num := 8;
  label_smoothing := 5 / 1000;
  cls_loss_weight := 1;
  segment_loss_weight := 1;
  col_diff_loss_weight := 1;
  row_diff_loss_weight := 1;
  curve_latent_loss_weight := 1;
  kl_loss_weight := 2 / 10000;
  curve_latent_embed_dim := 256;
  use_mlp_predict := false;
  use_focal_loss := false;
  use_latent_pos_emb := false
|}.

(** A small model instance with fixed sub-networks: one batch item, two
    segment slots, one column and one row class. *)
Definition toy_config : Config := {|
  latent_channels := 1;
  max_col_diff := 1;
  max_row_diff := 1;
  attn_encoder_depth := 1;
  attn_decoder_self_depth := 1;
  attn_decoder_cross_depth := 1;
  attn_dim := 1;
  num_heads := 1;
  max_curves_num := 2;
  wireframe_latent_num := 1;
  label_smoothing := 0;
  cls_loss_weight := 1;
  segment_loss_weight := 2;
  col_diff_loss_weight := 3;
  row_diff_loss_weight := 4;
  curve_latent_loss_weight := 5;
  kl_loss_weight := 6;
  curve_latent_embed_dim := 1;
  use_mlp_predict := false;
  use_focal_loss := false;
  use_latent_pos_emb := false
|}.

Definition toy_posterior : Posterior :=
  {| mean := [[[2]]]; logvar := [[[0]]]; var := [[[1]]]; std := [[[1]]] |}.

Definition toy_preds : Preds :=
  {| cls := [[0; 0]];
     segments := [[repeat 0 6; repeat 0 6]];
     diffs := [[[1; 1]; [1; 1]]];
     curve_latent := [[repeat 0 12; repeat 0 12]] |}.

Definition toy_net : Submodules :=
  {| ce_loss_mean := fun _ _ _ _ => 1;
     ce_loss_elem := fun logits _ _ _ _ => Rsum logits;
     run_encode := fun _ _ => Some toy_posterior;
     run_sample := fun p _ => mean p;
     run_decode := fun z => Some z;
     run_linear_predict := fun _ => Some toy_preds;
     run_mlp_predict := fun _ => Some toy_preds |}.

Definition toy_model : Model := init toy_config toy_net.

Definition toy_xs : Tensor3 := [[repeat 1 30; repeat 3 30]].

Definition toy_flag_diffs : FlagDiffs := [[fd 1 0 0; fd 0 0 0]].

(** Predictions and ground-truth coordinates for the scenario. *)
Definition scenario_preds : Preds :=
  {| cls := repeat (repeat 0 4) 2;
     segments := repeat (repeat (repeat 0 6) 4) 2;
     diffs := repeat (repeat (repeat 0 38) 4) 2;
     curve_latent := repeat (repeat (repeat 0 12) 4) 2 |}.

Definition scenario_gt_segment_coords : Tensor3 := repeat (repeat (repeat 1 6) 4) 2.

(** *** Further definitions *)

(** The per-element weights of the latent regression (lines 520-521). *)
Definition mu_weights_of (gt_curve_latent : Tensor3) : Tensor3 :=
  tensor3_map (fun s => 1.2 - 0.5 * ln (s + 1.7183))
    (tensor3_map (clamp 0 1) (map (map (skipn 12)) gt_curve_latent)).

(** A ground-truth latent row with its spread half (channels from 12 on)
    clamped to [0, 1]. *)
Definition clamp_spread (row : list R) : list R :=
  firstn 12 row ++ map (clamp 0 1) (skipn 12 row).

(** [nn.Embedding(num_embeddings, _)] raises on an index outside
    [0, num_embeddings). *)
Definition embedding_index_ok (num_embeddings : nat) (i : Z) : bool :=
  (0 <=? i)%Z && (i <? Z.of_nat num_embeddings)%Z.

(** The two offset look-ups of [Encoder1D.forward] (lines 129-133) succeed at
    one position. *)
Definition offsets_in_tables (e : Shape.Encoder1D) (d : FlagDiff) : bool :=
  embedding_index_ok (Shape.enc_max_col_diff e) (col_diff d)
  && embedding_index_ok (Shape.enc_max_row_diff e) (row_diff d).

(** The look-ups are applied to the whole offset tensor, padded positions
    included. *)
Definition Encoder1D_embeds_offsets (e : Shape.Encoder1D) (flag_diffs : FlagDiffs) : bool :=
  forallb (forallb (offsets_in_tables e)) flag_diffs.

(** The scenario read as a full input of 30 channels. *)
Definition scenario_xs : Tensor3 := repeat (repeat (repeat 1 30) 4) 2.

(** The entries of the valid rows of one batch item, in row-major order. *)
Fixpoint valid_entries_item {A : Type} (tb : list (list A)) (mb : list bool) : list A :=
  match tb, mb with
  | r :: tb', b :: mb' => (if b then r else []) ++ valid_entries_item tb' mb'
  | _, _ => []
  end.

(** The entries of all valid positions of the batch. *)
Fixpoint valid_entries {A : Type} (t : list (list (list A))) (mask : Mask) : list A :=
  match t, mask with
  | tb :: t', mb :: mask' => valid_entries_item tb mb ++ valid_entries t' mask'
  | _, _ => []
  end.

(** Two batch items over four segment slots whose padded positions carry
    offsets outside the tables. *)
Definition padded_out_of_range : FlagDiffs :=
  [ [fd 1 0 0; fd 1 5 31; fd 0 9 40; fd 0 (-1) 0];
    [fd 1 0 0; fd 0 6 0; fd 0 0 32; fd 0 0 0] ].

(** Two batch items padded to two segment slots only. *)
Definition short_flag_diffs : FlagDiffs :=
  [ [fd 1 0 0; fd 1 1 0];
    [fd 1 0 0; fd 0 0 0] ].

(** *** The offset tensor as the encoder reads it *)

(** The offset look-ups must succeed at every position, and the tensor has
    shape (B, N, 3).  An empty batch has no segment axis to read. *)
Definition offsets_shape (c : Config) (flag_diffs : FlagDiffs) : option Shape.shape :=
  _ <- assert (Encoder1D_embeds_offsets (Shape.encoder_of c) flag_diffs) ;;
  match flag_diffs with
  | [] => None
  | item :: _ =>
      if forallb (fun i => (List.length i =? List.length item)%nat) flag_diffs
      then Some [List.length flag_diffs; List.length item; 3%nat]
      else None
  end.

(** [AutoencoderKLWireframe.encode] on an input tensor of the given shape
    and a given offset tensor. *)
Definition encode_with_offsets (c : Config) (xs : Shape.shape) (flag_diffs : FlagDiffs)
  : option Shape.posterior_shape :=
  fds <- offsets_shape c flag_diffs ;;
  Shape.encode c xs fds.

(** The prediction path of [AutoencoderKLWireframe.forward], likewise. *)
Definition forward_with_offsets (c : Config) (xs : Shape.shape) (flag_diffs : FlagDiffs)
  : option Shape.preds_shape :=
  fds <- offsets_shape c flag_diffs ;;
  Shape.AutoencoderKLWireframe_forward c xs fds.

(** [AutoencoderKLWireframeFastEncode.forward], likewise. *)
Definition FastEncode_forward_with_offsets (c : Config) (xs : Shape.shape)
  (flag_diffs : FlagDiffs) (return_std : bool) : option Shape.shape :=
  fds <- offsets_shape c flag_diffs ;;
  Shape.FastEncode_forward c xs fds return_std.

(** *** Method calls on an instance *)

Inductive Call :=
| CallEncode (xs : Tensor3) (flag_diffs : FlagDiffs)
| CallDecode (z : Tensor3)
| CallLoss (gt_segment_coords : Tensor3) (gt_flag_diffs : FlagDiffs)
    (gt_curve_latent : Tensor3) (xs_mask : Mask) (preds : Preds)
| CallForward (xs : Tensor3) (flag_diffs : FlagDiffs)
    (sample_posterior return_dict : bool) (generator : option Generator)
    (return_loss : bool).

Inductive Returned :=
| ReturnedPosterior (p : option Posterior)
| ReturnedTensor (t : option Tensor3)
| ReturnedLosses (l : option Losses)
| ReturnedForward (r : option forward_result).

(** A method call: the instance after the call and what the call returns.
    The buffers are written by [register_buffer] in [__init__]; no method
    of the class assigns to an attribute of [self], so every call hands the
    instance on as it received it. *)
Definition call (m : Model) (c : Call) : Model * Returned :=
  match c with
  | CallEncode xs flag_diffs => (m, ReturnedPosterior (run_encode (net m) xs flag_diffs))
  | CallDecode z => (m, ReturnedTensor (run_decode (net m) z))
  | CallLoss gc gfd gl xs_mask preds =>
      (m, ReturnedLosses (loss m gc gfd gl xs_mask preds))
  | CallForward xs flag_diffs sp rd g rl =>
      (m, ReturnedForward (forward m xs flag_diffs sp rd g rl))
  end.

(** The instance after a sequence of calls. *)
Definition after_calls (m : Model) (calls : list Call) : Model :=
  fold_left (fun m c => fst (call m c)) calls m.

(** ** The KL term in single precision (lines 585-589) *)

Module F32.

(** IEEE binary32: 24 bits of precision, exponents up to 128. *)
Definition prec : Z := 24.
Definition emax : Z := 128.

Definition float32 := spec_float.

Definition add : float32 -> float32 -> float32 := SFadd prec emax.
Definition sub : float32 -> float32 -> float32 := SFsub prec emax.
Definition mul : float32 -> float32 -> float32 := SFmul prec emax.
Definition div : float32 -> float32 -> float32 := SFdiv prec emax.

Definition zero : float32 := S754_zero false.

(** [2^e], for an exponent in the normal range. *)
Definition pow2 (e : Z) : float32 := S754_finite false 8388608 (e - 23).

Definition one : float32 := pow2 0.
Definition half : float32 := pow2 (-1).

Definition of_nat (n : nat) : float32 := binary_normalize prec emax (Z.of_nat n) 0 false.

(** Neither infinite nor nan. *)
Definition is_finite (x : float32) : bool :=
  match x with
  | S754_zero _ | S754_finite _ _ _ => true
  | S754_infinity _ | S754_nan => false
  end.

(** [==] on floats: the two zeros are equal, nan equals nothing. *)
Definition eqb : float32 -> float32 -> bool := SFeqb.

(** [torch.sum], accumulated from left to right. *)
Definition sum (l : list float32) : float32 := fold_left add l zero.

(** [.mean()]. *)
Definition mean_of (l : list float32) : float32 := div (sum l) (of_nat (List.length l)).

Record Posterior32 := {
  mean32 : list (list (list float32));
  var32 : list (list (list float32));
  logvar32 : list (list (list float32))
}.

(** [0.5 * torch.sum(torch.pow(mean, 2) + var - 1.0 - logvar, dim=[1,2]).mean()]. *)
Definition kl_divergence (p : Posterior32) : option float32 :=
  t <- tensor3_zip add (tensor3_map (fun x => mul x x) (mean32 p)) (var32 p) ;;
  let t := tensor3_map (fun x => sub x one) t in
  t <- tensor3_zip sub t (logvar32 p) ;;
  Some (mul half (mean_of (map (fun item => sum (concat item)) t))).

(** Lines 585-589: the KL term, multiplied by zero when the latents were
    the mode of the posterior. *)
Definition forward_kl_loss (sample_posterior : bool) (p : Posterior32) : option float32 :=
  kl_loss <- kl_divergence p ;;
  Some (if negb sample_posterior then mul zero kl_loss else kl_loss).

(** A posterior with one entry: mean 2, variance 1, log-variance 0. *)
Definition small_posterior : Posterior32 :=
  {| mean32 := [[[pow2 1]]]; var32 := [[[one]]]; logvar32 := [[[zero]]] |}.

(** A posterior with one entry whose mean, [2^100], is finite but has no
    finite square in single precision. *)
Definition overflow_posterior : Posterior32 :=
  {| mean32 := [[[pow2 100]]]; var32 := [[[one]]]; logvar32 := [[[zero]]] |}.

End F32.

(** * Facts *)

(** ** The error monad *)

Lemma bind_some {A B : Type} (o : option A) (k : A -> option B) (b : B) :
  bind o k = Some b -> exists a, o = Some a /\ k a = Some b.
Proof.
  destruct o as [a|]; simpl; intros H; [exists a; auto | discriminate].
Qed.




(** ** Agreement relative to a mask *)











(** ** Rows *)


Lemma eq_if_valid_refl {A : Type} (b : bool) (a : A) : eq_if_valid b a a.
Proof. destruct b; simpl; auto. Qed.













(** ** The loss terms only read the valid positions *)













(** The zeroing is not the identity: the invalid second position of the
    small instance loses its coordinates. *)
Lemma toy_zeroing_changes_ground_truth :
  zero_invalid zero_row (xs_mask_of toy_flag_diffs) (map (map (firstn 6)) toy_xs)
  = [[repeat 1 6; repeat 0 6]] /\
  map (map (firstn 6)) toy_xs = [[repeat 1 6; repeat 3 6]].
Proof. split; reflexivity. Qed.

(** ** The segment-regression term on well-shaped inputs *)

Lemma map2E_total {A B C : Type} (f : A -> B -> C) p g :
  List.length p = List.length g ->
  map2E f p g = Some (map (fun pg => f (fst pg) (snd pg)) (combine p g)).
Proof.
  unfold map2E. revert g.
  induction p as [|a p IH]; intros [|b g]; simpl; try discriminate; auto.
  intros H. injection H as H. rewrite (IH g H). reflexivity.
Qed.

Lemma select1_uniform {A : Type} (b : bool) (t : list A) :
  select1 t (repeat b (List.length t)) = Some (if b then t else []).
Proof.
  unfold select1. induction t as [|a t IH]; simpl.
  - destruct b; reflexivity.
  - rewrite IH. destruct b; reflexivity.
Qed.

Lemma sq_err_row_length p g :
  List.length p = List.length g -> List.length (sq_err_row p g) = List.length p.
Proof.
  intros H. unfold sq_err_row. rewrite length_map, length_combine, <- H.
  apply Nat.min_id.
Qed.

(** One batch item: the element-wise errors followed by the mask indexing
    are the errors of the valid rows. *)
Lemma segment_item_select c pb gb mb :
  Forall (fun r => List.length r = c) pb ->
  Forall (fun r => List.length r = c) gb ->
  List.length pb = List.length gb -> List.length pb = List.length mb ->
  exists t, tensor2_zip (fun a b => (a - b) * (a - b)) pb gb = Some t /\
            select2 t (map (fun b => repeat b c) mb)
            = Some (valid_sq_errors_item pb gb mb).
Proof.
  intros Hp. revert gb mb.
  induction Hp as [|p pb Hlp Hp IH]; intros gb mb Hg Hpg Hpm.
  - destruct gb, mb; try discriminate. exists []. split; reflexivity.
  - destruct gb as [|g gb], mb as [|b mb]; try discriminate.
    inversion Hg as [|? ? Hlg Hg']; subst.
    injection Hpg as Hpg. injection Hpm as Hpm.
    destruct (IH gb mb Hg' Hpg Hpm) as [t [Ht Hs]].
    unfold tensor2_zip in *. simpl zipE.
    rewrite map2E_total by congruence. simpl bind. rewrite Ht. simpl bind.
    eexists. split; [reflexivity|].
    unfold select2 in *. simpl select_with.
    fold (sq_err_row p g).
    rewrite <- (sq_err_row_length p g) at 1 by congruence.
    rewrite select1_uniform. simpl bind. rewrite Hs. simpl.
    destruct b; reflexivity.
Qed.

Lemma segment_select pred gt mask n c :
  Forall (has_shape2 n c) pred -> Forall (has_shape2 n c) gt ->
  Forall (fun mb => List.length mb = n) mask ->
  List.length pred = List.length gt -> List.length pred = List.length mask ->
  exists t, mse_loss_fn pred gt = Some t /\
            select3 t (repeat_mask c mask) = Some (valid_sq_errors pred gt mask).
Proof.
  intros Hp. revert gt mask.
  induction Hp as [|pb pred [Hlp Hrp] Hp IH]; intros gt mask Hg Hm Hpg Hpm.
  - destruct gt, mask; try discriminate. exists []. split; reflexivity.
  - destruct gt as [|gb gt], mask as [|mb mask]; try discriminate.
    inversion Hg as [|? ? [Hlg Hrg] Hg']; subst.
    inversion Hm as [|? ? Hlm Hm']; subst.
    injection Hpg as Hpg. injection Hpm as Hpm.
    destruct (IH gt mask Hg' Hm' Hpg Hpm) as [t [Ht Hs]].
    destruct (@segment_item_select c pb gb mb Hrp Hrg) as [ti [Hti Hsi]];
      try congruence.
    unfold mse_loss_fn, tensor3_zip in *. simpl zipE.
    rewrite Hti. simpl bind. rewrite Ht. simpl bind.
    eexists. split; [reflexivity|].
    unfold select3, repeat_mask in *. simpl.
    rewrite Hsi. simpl bind. rewrite Hs. reflexivity.
Qed.

Lemma valid_sq_errors_item_length c pb gb mb :
  Forall (fun r => List.length r = c) pb ->
  Forall (fun r => List.length r = c) gb ->
  List.length pb = List.length gb -> List.length pb = List.length mb ->
  List.length (valid_sq_errors_item pb gb mb) = (c * count_true mb)%nat.
Proof.
  intros Hp. revert gb mb.
  induction Hp as [|p pb Hlp Hp IH]; intros gb mb Hg Hpg Hpm.
  - destruct gb, mb; try discriminate. simpl. unfold count_true. simpl. lia.
  - destruct gb as [|g gb], mb as [|b mb]; try discriminate.
    inversion Hg as [|? ? Hlg Hg']; subst.
    injection Hpg as Hpg. injection Hpm as Hpm.
    simpl. rewrite length_app, (IH gb mb Hg' Hpg Hpm).
    unfold count_true. destruct b; simpl.
    + rewrite sq_err_row_length by congruence.
      fold (count_true mb). lia.
    + reflexivity.
Qed.

Lemma valid_sq_errors_length pred gt mask n c :
  Forall (has_shape2 n c) pred -> Forall (has_shape2 n c) gt ->
  Forall (fun mb => List.length mb = n) mask ->
  List.length pred = List.length gt -> List.length pred = List.length mask ->
  List.length (valid_sq_errors pred gt mask) = (c * count_valid mask)%nat.
Proof.
  intros Hp. revert gt mask.
  induction Hp as [|pb pred [Hlp Hrp] Hp IH]; intros gt mask Hg Hm Hpg Hpm.
  - destruct gt, mask; try discriminate. simpl. unfold count_valid. simpl. lia.
  - destruct gt as [|gb gt], mask as [|mb mask]; try discriminate.
    inversion Hg as [|? ? [Hlg Hrg] Hg']; subst.
    inversion Hm as [|? ? Hlm Hm']; subst.
    injection Hpg as Hpg. injection Hpm as Hpm.
    simpl. rewrite length_app, (IH gt mask Hg' Hm' Hpg Hpm).
    rewrite (@valid_sq_errors_item_length c pb gb mb) by congruence.
    unfold count_valid. simpl. lia.
Qed.

Lemma loss_segment_component m gc gfd gl mask preds l :
  loss m gc gfd gl mask preds = Some l ->
  segment_mse_loss_term (segments preds) gc mask = Some (segment_mse_loss l).
Proof.
  unfold loss. intros H.
  destruct (segment_mse_loss_term (segments preds) gc mask) as [s|]; [|discriminate].
  simpl in H.
  destruct (col_diff_ce_loss_term _ _ _ _ _); [|discriminate]. simpl in H.
  destruct (row_diff_ce_loss_term _ _ _ _); [|discriminate]. simpl in H.
  destruct (curve_latent_loss_term _ _ _); [|discriminate]. simpl in H.
  injection H as <-. reflexivity.
Qed.

(** C8.  Segment regression: for predictions and ground-truth coordinates
    of shape (B, N, 6) and a mask of shape (B, N) with at least one valid
    position, the segment-regression component is the sum of the squared
    errors of the valid positions divided by the number of valid scalar
    entries, which is six times the number of valid positions and is not
    zero; the padded positions do not enter the mean. *)
Theorem segment_loss_is_mean_over_valid :
  forall (m : Model) (B N : nat) (preds : Preds) (gt_segment_coords : Tensor3)
         (xs_mask : Mask),
    has_shape3 B N 6 (segments preds) ->
    has_shape3 B N 6 gt_segment_coords ->
    has_shape2 B N xs_mask ->
    (1 <= count_valid xs_mask)%nat ->
    let errors := valid_sq_errors (segments preds) gt_segment_coords xs_mask in
    List.length errors = (6 * count_valid xs_mask)%nat /\
    0 < INR (List.length errors) /\
    segment_mse_loss_term (segments preds) gt_segment_coords xs_mask
    = Some (Rsum errors / INR (6 * count_valid xs_mask)) /\
    (forall gt_flag_diffs gt_curve_latent l,
        loss m gt_segment_coords gt_flag_diffs gt_curve_latent xs_mask preds = Some l ->
        segment_mse_loss l = Rsum errors / INR (6 * count_valid xs_mask)).
Proof.
  intros m B N preds gc mask [Hlp Hp] [Hlg Hg] [Hlm Hm] Hcv errors.
  assert (Hlen : List.length errors = (6 * count_valid mask)%nat).
  { apply valid_sq_errors_length with (n := N); auto; congruence. }
  assert (Hterm : segment_mse_loss_term (segments preds) gc mask
                  = Some (Rsum errors / INR (6 * count_valid mask))).
  { destruct (@segment_select (segments preds) gc mask N 6) as [t [Ht Hs]];
      auto; try congruence.
    unfold segment_mse_loss_term. rewrite Ht. simpl bind. rewrite Hs. simpl bind.
    unfold Rmean. fold errors. rewrite Hlen. reflexivity. }
  split; [exact Hlen|]. split; [|split; [exact Hterm|]].
  - rewrite Hlen. apply lt_0_INR. lia.
  - intros gfd gl l Hl. apply loss_segment_component in Hl.
    rewrite Hterm in Hl. now injection Hl as <-.
Qed.

Lemma scenario_cls_targets : cls_target scenario_flag_diffs = [1%Z; 2%Z].
Proof. reflexivity. Qed.

Lemma scenario_valid_entries :
  (6 * count_valid (xs_mask_of scenario_flag_diffs))%nat = 30%nat.
Proof. reflexivity. Qed.

Lemma segment_loss_is_mean_over_valid_witness :
  segment_mse_loss_term (segments scenario_preds) scenario_gt_segment_coords
    (xs_mask_of scenario_flag_diffs)
  = Some (Rsum (valid_sq_errors (segments scenario_preds) scenario_gt_segment_coords
                  (xs_mask_of scenario_flag_diffs)) / INR 30).
Proof.
  destruct (@segment_loss_is_mean_over_valid toy_model 2 4 scenario_preds
              scenario_gt_segment_coords (xs_mask_of scenario_flag_diffs))
    as [_ [_ [H _]]].
  - split; [reflexivity|]. repeat (constructor; [split; [reflexivity|]|]);
      repeat constructor.
  - split; [reflexivity|]. repeat (constructor; [split; [reflexivity|]|]);
      repeat constructor.
  - split; [reflexivity|]. repeat constructor.
  - apply (proj1 (Nat.leb_le 1 _)). reflexivity.
  - exact H.
Defined.

(** ** The classification target *)

Lemma sum_flags_counts_valid item :
  binary_flags item ->
  sum_Z (map flag item) = Z.of_nat (count_true (map is_valid item)).
Proof.
  unfold binary_flags, count_true.
  induction 1 as [|d item Hd _ IH]; [reflexivity|].
  cbn [map sum_Z fold_right filter]. fold (sum_Z (map flag item)). rewrite IH.
  destruct Hd as [Hd | Hd].
  - replace (is_valid d) with false by (unfold is_valid; now rewrite Hd).
    rewrite Hd. lia.
  - replace (is_valid d) with true by (unfold is_valid; now rewrite Hd).
    rewrite Hd. cbn [List.length]. lia.
Qed.

Lemma loss_cls_component m gc gfd gl mask preds l :
  loss m gc gfd gl mask preds = Some l ->
  cls_ce_loss l = ce_loss_mean (net m) (cls preds) (cls_target gfd)
                    (label_smoothing (config m)) (max_curves_num (config m)).
Proof.
  unfold loss. intros H.
  destruct (segment_mse_loss_term _ _ _); [|discriminate]. simpl in H.
  destruct (col_diff_ce_loss_term _ _ _ _ _); [|discriminate]. simpl in H.
  destruct (row_diff_ce_loss_term _ _ _ _); [|discriminate]. simpl in H.
  destruct (curve_latent_loss_term _ _ _); [|discriminate]. simpl in H.
  injection H as <-. reflexivity.
Qed.

(** C3.  Classification target: one class per batch item, and for a batch
    item whose flags are bits and which has exactly [k] valid segments the
    target is [k - 1]; this target is what [loss] hands to the
    classification cross-entropy. *)
Theorem cls_target_is_count_minus_one :
  forall (gt_flag_diffs : FlagDiffs) (i : nat) (item : list FlagDiff) (k : nat),
    nth_error gt_flag_diffs i = Some item ->
    binary_flags item ->
    count_true (map is_valid item) = k ->
    List.length (cls_target gt_flag_diffs) = List.length gt_flag_diffs /\
    nth_error (cls_target gt_flag_diffs) i = Some (Z.of_nat k - 1)%Z /\
    (forall m gc gl mask preds l,
        loss m gc gt_flag_diffs gl mask preds = Some l ->
        cls_ce_loss l = ce_loss_mean (net m) (cls preds) (cls_target gt_flag_diffs)
                          (label_smoothing (config m)) (max_curves_num (config m))).
Proof.
  intros gfd i item k Hi Hb Hk. unfold cls_target at 1 2.
  split; [apply length_map|]. split.
  - rewrite nth_error_map, Hi. simpl.
    now rewrite (sum_flags_counts_valid Hb), Hk.
  - intros. eapply loss_cls_component; eauto.
Qed.

Lemma cls_target_is_count_minus_one_witness :
  nth_error (cls_target scenario_flag_diffs) 1 = Some 2%Z.
Proof.
  destruct (@cls_target_is_count_minus_one scenario_flag_diffs 1
              [fd 1 0 0; fd 1 1 0; fd 1 2 1; fd 0 0 0] 3) as [_ [H _]].
  - reflexivity.
  - unfold binary_flags.
    repeat (apply Forall_cons; [simpl; auto|]). apply Forall_nil.
  - reflexivity.
  - exact H.
Defined.

(** ** The class-weight buffers *)

Lemma linspace_length a b n : List.length (linspace a b n) = n.
Proof. unfold linspace. now rewrite length_map, length_seq. Qed.

Lemma linspace_three : linspace (-1) 1 3 = [-1; 0; 1].
Proof.
  unfold linspace. simpl. repeat f_equal; lra.
Qed.

Lemma exp_weights_positive (labels : list R) : Forall (fun w => 0 < w) (map exp labels).
Proof. apply Forall_map. apply Forall_forall. intros x _. apply exp_pos. Qed.

Lemma linspace_nth_error a b n i :
  (i < n)%nat ->
  nth_error (linspace a b n) i = Some (a + INR i * ((b - a) / INR (n - 1))).
Proof.
  intros H. unfold linspace.
  rewrite nth_error_map, nth_error_nth' with (d := 0%nat) by now rewrite length_seq.
  now rewrite seq_nth.
Qed.

Lemma exp_linspace_nth_error n i :
  (i < n)%nat ->
  nth_error (map exp (linspace (-1) 1 n)) i
  = Some (exp (-1 + INR i * ((1 - -1) / INR (n - 1)))).
Proof.
  intros H. now rewrite nth_error_map, linspace_nth_error.
Qed.

(** No method call replaces a buffer of the instance. *)
Lemma after_calls_buffers m calls :
  col_diff_class_weights (after_calls m calls) = col_diff_class_weights m /\
  row_diff_class_weights (after_calls m calls) = row_diff_class_weights m /\
  col_weights (after_calls m calls) = col_weights m.
Proof.
  unfold after_calls. revert m.
  induction calls as [|c calls IH]; intros m; [now repeat split|].
  cbn [fold_left]. destruct (IH (fst (call m c))) as [H1 [H2 H3]].
  rewrite H1, H2, H3. now destruct c.
Qed.

(** C9.  Class-weight buffers built by [__init__]: the column and row
    vectors have lengths [max_col_diff] and [max_row_diff]; all their
    entries are strictly positive; entry [i] is the exponential of the
    [i]-th of the evenly spaced points from -1 to 1, so the vectors are
    functions of the two class counts alone (two constructions with the
    same number of classes give the same vector, whatever the other
    settings and the sub-networks); and after any sequence of calls of
    [encode], [decode], [loss] and [forward] the instance still carries the
    vectors [__init__] registered. *)
Theorem class_weight_buffers :
  forall (c : Config) (n : Submodules),
    let m := init c n in
    List.length (col_diff_class_weights m) = max_col_diff c /\
    List.length (row_diff_class_weights m) = max_row_diff c /\
    Forall (fun w => 0 < w) (col_diff_class_weights m) /\
    Forall (fun w => 0 < w) (row_diff_class_weights m) /\
    (forall i, (i < max_col_diff c)%nat ->
        nth_error (col_diff_class_weights m) i
        = Some (exp (-1 + INR i * ((1 - -1) / INR (max_col_diff c - 1))))) /\
    (forall i, (i < max_row_diff c)%nat ->
        nth_error (row_diff_class_weights m) i
        = Some (exp (-1 + INR i * ((1 - -1) / INR (max_row_diff c - 1))))) /\
    (forall c' n',
        max_col_diff c' = max_col_diff c ->
        col_diff_class_weights (init c' n') = col_diff_class_weights m) /\
    (forall c' n',
        max_row_diff c' = max_row_diff c ->
        row_diff_class_weights (init c' n') = row_diff_class_weights m) /\
    (forall calls : list Call,
        col_diff_class_weights (after_calls m calls) = map exp (linspace (-1) 1 (max_col_diff c)) /\
        row_diff_class_weights (after_calls m calls) = map exp (linspace (-1) 1 (max_row_diff c))).
Proof.
  intros c n m.
  split; [|split; [|split; [|split; [|split; [|split; [|split; [|split]]]]]]].
  - unfold m, init. cbn [col_diff_class_weights].
    now rewrite length_map, linspace_length.
  - unfold m, init. cbn [row_diff_class_weights].
    now rewrite length_map, linspace_length.
  - apply exp_weights_positive.
  - apply exp_weights_positive.
  - intros i Hi. now apply exp_linspace_nth_error.
  - intros i Hi. now apply exp_linspace_nth_error.
  - intros c' n' H. unfold m, init. cbn [col_diff_class_weights]. now rewrite H.
  - intros c' n' H. unfold m, init. cbn [row_diff_class_weights]. now rewrite H.
  - intros calls. destruct (after_calls_buffers m calls) as [H1 [H2 _]].
    rewrite H1, H2. split; reflexivity.
Qed.

(** ** [forward] *)

(** The dictionary [forward] builds from the five task losses, the KL term
    and the two diagnostics. *)
Lemma forward_loss_run m xs flag_diffs (sp : bool) g posterior dec preds kl l :
  run_encode (net m) (map (map (firstn 18)) xs) flag_diffs = Some posterior ->
  run_decode (net m)
    (if sp then run_sample (net m) posterior g else mode posterior) = Some dec ->
  (if use_mlp_predict (config m)
   then run_mlp_predict (net m) dec
   else run_linear_predict (net m) dec) = Some preds ->
  kl_divergence posterior = Some kl ->
  loss m (map (map (firstn 6)) xs) flag_diffs (map (map (skipn 6)) xs)
       (xs_mask_of flag_diffs) preds = Some l ->
  let c := config m in
  let kl_loss := if sp then kl else 0 * kl in
  forward m xs flag_diffs sp true g true
  = Some (LossPair
            (cls_loss_weight c * cls_ce_loss l
             + segment_loss_weight c * segment_mse_loss l
             + col_diff_loss_weight c * col_diff_ce_loss l
             + row_diff_loss_weight c * row_diff_ce_loss l
             + curve_latent_loss_weight c * curve_latent_loss l
             + kl_loss_weight c * kl_loss)
            [ ("cls_ce_loss"%string, cls_ce_loss l);
              ("segment_mse_loss"%string, segment_mse_loss l);
              ("col_diff_ce_loss"%string, col_diff_ce_loss l);
              ("row_diff_ce_loss"%string, row_diff_ce_loss l);
              ("curve_latent_loss"%string, curve_latent_loss l);
              ("kl_loss"%string, kl_loss);
              ("mu"%string, Rmean (flatten3 (tensor3_map Rabs (mean posterior))));
              ("std"%string, Rmean (flatten3 (std posterior))) ]).
Proof.
  intros He Hd Hp Hk Hl c kl_loss. unfold forward.
  rewrite He. cbn [bind]. rewrite Hd. cbn [bind].
  fold c. fold c in Hp. rewrite Hp. cbn [bind negb].
  rewrite Hk. cbn [bind]. rewrite Hl. cbn [bind].
  unfold kl_loss. destruct sp; reflexivity.
Qed.

Lemma forward_loss_inv m xs flag_diffs (sp : bool) rd g total d :
  forward m xs flag_diffs sp rd g true = Some (LossPair total d) ->
  exists posterior kl l,
    kl_divergence posterior = Some kl /\
    dict_get "kl_loss" d = Some (if sp then kl else 0 * kl) /\
    dict_get "mu" d = Some (Rmean (flatten3 (tensor3_map Rabs (mean posterior)))) /\
    dict_get "std" d = Some (Rmean (flatten3 (std posterior))) /\
    dict_get "cls_ce_loss" d = Some (cls_ce_loss l).
Proof.
  unfold forward. intros H.
  apply bind_some in H. destruct H as [posterior [_ H]].
  apply bind_some in H. destruct H as [dec [_ H]].
  apply bind_some in H. destruct H as [preds [_ H]].
  destruct rd; cbn [negb] in H; [|discriminate].
  apply bind_some in H. destruct H as [kl [Hk H]].
  apply bind_some in H. destruct H as [l [_ H]].
  injection H as _ <-.
  exists posterior, kl, l. destruct sp; repeat split; auto.
Qed.

Lemma forward_loss_inv_mode m xs flag_diffs rd g total d :
  forward m xs flag_diffs false rd g true = Some (LossPair total d) ->
  exists posterior kl,
    run_encode (net m) (map (map (firstn 18)) xs) flag_diffs = Some posterior /\
    kl_divergence posterior = Some kl /\
    dict_get "kl_loss" d = Some (0 * kl).
Proof.
  unfold forward. intros H.
  apply bind_some in H. destruct H as [posterior [He H]].
  apply bind_some in H. destruct H as [dec [_ H]].
  apply bind_some in H. destruct H as [preds [_ H]].
  destruct rd; cbn [negb] in H; [|discriminate].
  apply bind_some in H. destruct H as [kl [Hk H]].
  apply bind_some in H. destruct H as [l [_ H]].
  injection H as _ <-.
  exists posterior, kl. repeat split; auto.
Qed.

(** C2.  KL zeroing: in the deterministic pathway
    ([sample_posterior = False]) the entry ['kl_loss'] of every loss
    dictionary [forward] returns is the product of zero and the closed-form
    KL value of the encoded posterior; in single precision this product is
    a zero when the KL value is finite, and nan when it is not. *)
Theorem mode_kl_loss_zero_when_finite :
  (forall (p : F32.Posterior32) (kl : F32.float32),
      F32.kl_divergence p = Some kl ->
      F32.is_finite kl = true ->
      exists s,
        F32.forward_kl_loss false p = Some (S754_zero s) /\
        F32.eqb (S754_zero s) F32.zero = true) /\
  (forall (p : F32.Posterior32) (kl : F32.float32),
      F32.kl_divergence p = Some kl ->
      F32.is_finite kl = false ->
      F32.forward_kl_loss false p = Some S754_nan) /\
  (forall (m : Model) (xs : Tensor3) (flag_diffs : FlagDiffs) (return_dict : bool)
          (generator : option Generator) (total : R) (all_losses : LossDict),
      forward m xs flag_diffs false return_dict generator true
      = Some (LossPair total all_losses) ->
      exists posterior kl,
        run_encode (net m) (map (map (firstn 18)) xs) flag_diffs = Some posterior /\
        kl_divergence posterior = Some kl /\
        dict_get "kl_loss" all_losses = Some (0 * kl)).
Proof.
  split; [|split].
  - intros p kl Hkl Hfin. unfold F32.forward_kl_loss. rewrite Hkl. cbn [bind negb].
    destruct kl as [s | s | | s m e]; try discriminate.
    + exists (xorb false s). split; [reflexivity | now destruct s].
    + exists (xorb false s). split; [reflexivity | now destruct s].
  - intros p kl Hkl Hfin. unfold F32.forward_kl_loss. rewrite Hkl. cbn [bind negb].
    destruct kl as [s | s | | s m e]; try discriminate; reflexivity.
  - intros m xs fds rd g total d H. now apply forward_loss_inv_mode in H.
Qed.

Lemma mode_kl_loss_zero_when_finite_witness :
  F32.kl_divergence F32.small_posterior = Some (F32.pow2 1) /\
  exists s, F32.forward_kl_loss false F32.small_posterior = Some (S754_zero s) /\
            F32.eqb (S754_zero s) F32.zero = true.
Proof.
  split; [reflexivity|].
  exact (proj1 mode_kl_loss_zero_when_finite F32.small_posterior (F32.pow2 1)
           eq_refl eq_refl).
Defined.

(** A finite posterior mean of [2^100] has no finite square in single
    precision: the KL value is infinite and its product with zero is nan. *)
Lemma mode_kl_loss_nan_counterexample :
  F32.is_finite (F32.pow2 100) = true /\
  F32.kl_divergence F32.overflow_posterior = Some (S754_infinity false) /\
  F32.forward_kl_loss false F32.overflow_posterior = Some S754_nan /\
  F32.eqb S754_nan F32.zero = false.
Proof. repeat split. Qed.

Lemma toy_kl : kl_divergence toy_posterior = Some 2.
Proof.
  unfold kl_divergence, toy_posterior, Rmean. simpl. f_equal. lra.
Qed.

Lemma toy_loss_succeeds :
  exists l,
    loss toy_model (map (map (firstn 6)) toy_xs) toy_flag_diffs
         (map (map (skipn 6)) toy_xs) (xs_mask_of toy_flag_diffs) toy_preds = Some l.
Proof. eexists. reflexivity. Qed.

(** C7.  Loss pair of [forward]: with [return_loss = True] and
    [return_dict = True], whenever encoding, decoding, the heads, the KL term
    and [loss] succeed, [forward] returns the pair made of the weighted sum
    of the five task losses and the KL term (each with its configured
    weight) and of the dictionary holding the six unweighted components, the
    mean absolute posterior mean under ['mu'] and the mean posterior standard
    deviation under ['std']. *)
Theorem forward_returns_weighted_sum :
  forall (m : Model) (xs : Tensor3) (flag_diffs : FlagDiffs) (sample_posterior : bool)
         (generator : option Generator) (posterior : Posterior) (dec : Tensor3)
         (preds : Preds) (kl : R) (l : Losses),
    run_encode (net m) (map (map (firstn 18)) xs) flag_diffs = Some posterior ->
    run_decode (net m)
      (if sample_posterior
       then run_sample (net m) posterior generator
       else mode posterior) = Some dec ->
    (if use_mlp_predict (config m)
     then run_mlp_predict (net m) dec
     else run_linear_predict (net m) dec) = Some preds ->
    kl_divergence posterior = Some kl ->
    loss m (map (map (firstn 6)) xs) flag_diffs (map (map (skipn 6)) xs)
         (xs_mask_of flag_diffs) preds = Some l ->
    let c := config m in
    let kl_loss := if sample_posterior then kl else 0 * kl in
    exists all_losses,
      forward m xs flag_diffs sample_posterior true generator true
      = Some (LossPair
                (cls_loss_weight c * cls_ce_loss l
                 + segment_loss_weight c * segment_mse_loss l
                 + col_diff_loss_weight c * col_diff_ce_loss l
                 + row_diff_loss_weight c * row_diff_ce_loss l
                 + curve_latent_loss_weight c * curve_latent_loss l
                 + kl_loss_weight c * kl_loss)
                all_losses) /\
      dict_get "cls_ce_loss" all_losses = Some (cls_ce_loss l) /\
      dict_get "segment_mse_loss" all_losses = Some (segment_mse_loss l) /\
      dict_get "col_diff_ce_loss" all_losses = Some (col_diff_ce_loss l) /\
      dict_get "row_diff_ce_loss" all_losses = Some (row_diff_ce_loss l) /\
      dict_get "curve_latent_loss" all_losses = Some (curve_latent_loss l) /\
      dict_get "kl_loss" all_losses = Some kl_loss /\
      dict_get "mu" all_losses
      = Some (Rmean (flatten3 (tensor3_map Rabs (mean posterior)))) /\
      dict_get "std" all_losses = Some (Rmean (flatten3 (std posterior))).
Proof.
  intros m xs fds sp g posterior dec preds kl l He Hd Hp Hk Hl c kl_loss.
  eexists. split.
  - eapply forward_loss_run; eassumption.
  - repeat split.
Qed.

Lemma forward_returns_weighted_sum_witness :
  exists total all_losses,
    forward toy_model toy_xs toy_flag_diffs false true None true
    = Some (LossPair total all_losses) /\
    dict_get "mu" all_losses = Some (Rmean [Rabs 2]) /\
    dict_get "std" all_losses = Some (Rmean [1]).
Proof.
  destruct toy_loss_succeeds as [l Hl].
  destruct (@forward_returns_weighted_sum toy_model toy_xs toy_flag_diffs false None
              toy_posterior [[[2]]] toy_preds _ l eq_refl eq_refl eq_refl toy_kl Hl)
    as [d [Hf [_ [_ [_ [_ [_ [_ [Hmu Hstd]]]]]]]]].
  eexists. exists d. split; [exact Hf|]. split; [exact Hmu | exact Hstd].
Defined.

Lemma forward_tuple_counterexample :
  forward toy_model toy_xs toy_flag_diffs false false None true
  = Some (PredsTuple toy_preds) /\
  ~ (exists total all_losses,
        forward toy_model toy_xs toy_flag_diffs false false None true
        = Some (LossPair total all_losses)).
Proof.
  split; [reflexivity|]. intros [total [d H]]. discriminate H.
Qed.

(** * Facts about shapes *)

(** ** Shape rules on tensors of rank 2 and 3 *)

Lemma linear_rank3 i o x y : Shape.linear i o [x; y; i] = Some [x; y; o].
Proof. unfold Shape.linear. simpl. now rewrite Nat.eqb_refl. Qed.

Lemma linear_rank2 i o x : Shape.linear i o [x; i] = Some [x; o].
Proof. unfold Shape.linear. simpl. now rewrite Nat.eqb_refl. Qed.

Lemma linear_rank3_inv i o x y w s :
  Shape.linear i o [x; y; w] = Some s -> w = i /\ s = [x; y; o].
Proof.
  unfold Shape.linear. simpl. destruct (Nat.eqb_spec w i); [|discriminate].
  intros H. injection H as <-. auto.
Qed.

Lemma unflatten_points_exact bs nl d :
  (1 <= bs)%nat ->
  Shape.unflatten_points bs [(bs * nl * 2)%nat; d] = Some [bs; nl; 2%nat; d].
Proof.
  intros Hb. unfold Shape.unflatten_points.
  destruct (Nat.eqb_spec (bs * 2) 0) as [E|E]; [lia|].
  replace (bs * nl * 2)%nat with (nl * (bs * 2))%nat by lia.
  rewrite Nat.Div0.mod_mul, Nat.div_mul by exact E. reflexivity.
Qed.

Lemma broadcast_pos_emb n d b :
  Shape.broadcast [n; d] [b; n; d] = Some [b; n; d].
Proof.
  unfold Shape.broadcast. simpl. unfold Shape.broadcast_dim.
  rewrite !Nat.eqb_refl. reflexivity.
Qed.

Lemma pack_four b n d1 d2 d3 d4 :
  Shape.pack_b_nl [[b; n; d1]; [b; n; d2]; [b; n; d3]; [b; n; d4]]
  = Some [b; n; (d1 + (d2 + (d3 + d4)))%nat].
Proof.
  cbn [Shape.pack_b_nl]. rewrite !Nat.eqb_refl. cbn [andb].
  rewrite !Nat.eqb_refl. cbn [andb]. rewrite !Nat.eqb_refl. reflexivity.
Qed.

Lemma cross_attn_masked dim b n m :
  Shape.cross_attn dim [b; n; dim] [b; m; dim] (Some [b; m]) = Some [b; n; dim].
Proof. unfold Shape.cross_attn. now rewrite !Nat.eqb_refl. Qed.

Lemma cross_attn_unmasked dim b n m :
  Shape.cross_attn dim [b; n; dim] [b; m; dim] None = Some [b; n; dim].
Proof. unfold Shape.cross_attn. now rewrite !Nat.eqb_refl. Qed.

Lemma self_attn_keeps dim b n : Shape.self_attn dim [b; n; dim] = Some [b; n; dim].
Proof. unfold Shape.self_attn. now rewrite Nat.eqb_refl. Qed.

Lemma diagonal_gaussian_halves b k n :
  Shape.diagonal_gaussian [b; (2 * k)%nat; n]
  = Some {| Shape.mean_shape := [b; k; n]; Shape.logvar_shape := [b; k; n] |}.
Proof.
  unfold Shape.diagonal_gaussian.
  replace (2 * k)%nat with (k * 2)%nat by lia.
  rewrite Nat.Div0.mod_mul, Nat.div_mul by discriminate. reflexivity.
Qed.

Ltac run := cbn [bind hd_error Shape.embedding Shape.unsqueeze_last app].

(** ** The encoder *)

Lemma encoder_forward_shape c B :
  (1 <= B)%nat ->
  Shape.Encoder1D_forward (Shape.encoder_of c)
    [B; max_curves_num c; 18%nat] [B; max_curves_num c; 3%nat]
  = Some [B; wireframe_latent_num c; (2 * latent_channels c)%nat].
Proof.
  intros HB. unfold Shape.Encoder1D_forward, Shape.encoder_of.
  set (N := max_curves_num c). set (D := attn_dim c).
  cbn [Shape.coor_embed_dim Shape.col_diff_embed_dim Shape.row_diff_embed_dim
       Shape.curve_latent_channels Shape.enc_curve_latent_embed_dim
       Shape.enc_attn_dim Shape.enc_max_curves_num Shape.double_z
       Shape.enc_out_channels Shape.enc_wireframe_latent_num].
  run.
  change (Shape.slice_last 0 6 [B; N; 18%nat]) with (Some [B; N; 6%nat]). run.
  change (Shape.split_endpoints [B; N; 6%nat]) with (Some [B; N; 2%nat; 3%nat]). run.
  change (Shape.flatten_points [B; N; 2%nat; 3%nat]) with (Some [(B * N * 2)%nat; 3%nat]).
  run.
  change (Shape.point_embed (128 * 3) [(B * N * 2)%nat; 3%nat])
    with (Some [(B * N * 2)%nat; (128 * 3)%nat]).
  run.
  rewrite unflatten_points_exact by exact HB. run.
  cbn [Shape.merge_endpoints]. run.
  change (Shape.index_last 0 [B; N; 3%nat]) with (Some [B; N]). run.
  change (Shape.slice_last_from 1 [B; N; 3%nat]) with (Some [B; N; 2%nat]). run.
  change (Shape.index_last 0 [B; N; 2%nat]) with (Some [B; N]). run.
  change (Shape.index_last 1 [B; N; 2%nat]) with (Some [B; N]). run.
  change (Shape.slice_last_from 6 [B; N; 18%nat]) with (Some [B; N; 12%nat]). run.
  rewrite linear_rank3. run.
  rewrite pack_four. run.
  replace (128 * 6 + 16 + 32 + curve_latent_embed_dim c)%nat
    with (2 * (128 * 3) + (16 + (32 + curve_latent_embed_dim c)))%nat by lia.
  rewrite linear_rank3. run.
  rewrite broadcast_pos_emb. run.
  cbn [Shape.repeat_batch Shape.merge_last_two]. run.
  rewrite Nat.mul_1_r, cross_attn_masked. run.
  apply linear_rank3.
Qed.

Lemma encode_shape c B :
  (1 <= B)%nat ->
  Shape.encode c [B; max_curves_num c; 18%nat] [B; max_curves_num c; 3%nat]
  = Some {| Shape.mean_shape := [B; latent_channels c; wireframe_latent_num c];
            Shape.logvar_shape := [B; latent_channels c; wireframe_latent_num c] |}.
Proof.
  intros HB. unfold Shape.encode. rewrite encoder_forward_shape by exact HB. run.
  rewrite linear_rank3. run. cbn [Shape.swap_last_two]. run.
  apply diagonal_gaussian_halves.
Qed.

(** ** The decoder *)

Lemma decode_shape c B n :
  use_latent_pos_emb c = false \/ n = 64%nat ->
  Shape.decode c [B; latent_channels c; n]
  = Some [B; (1 + max_curves_num c)%nat; attn_dim c].
Proof.
  intros Hpos. unfold Shape.decode, Shape._decode.
  cbn [Shape.swap_last_two]. run. rewrite linear_rank3. run.
  unfold Shape.Decoder1D_forward, Shape.decoder_of.
  cbn [Shape.dec_in_channels Shape.dec_attn_dim Shape.dec_max_curves_num
       Shape.dec_wireframe_latent_num Shape.dec_use_latent_pos_emb].
  run. rewrite linear_rank3. run.
  assert (E : forall k : Shape.shape -> option Shape.shape,
             bind (if use_latent_pos_emb c
                   then Shape.broadcast [64%nat; attn_dim c] [B; n; attn_dim c]
                   else Some [B; n; attn_dim c]) k
             = k [B; n; attn_dim c]).
  { intros k. destruct (use_latent_pos_emb c); auto.
    destruct Hpos as [Hf | ->]; [discriminate|]. now rewrite broadcast_pos_emb. }
  rewrite E. rewrite self_attn_keeps. run.
  cbn [Shape.repeat_batch]. run.
  rewrite cross_attn_unmasked. run. apply linear_rank3.
Qed.

(** ** The prediction heads *)

Lemma cls_token_shape b n d : Shape.index_axis1_0 [b; S n; d] = Some [b; d].
Proof. reflexivity. Qed.

Lemma features_tokens_shape b n d : Shape.slice_axis1_from1 [b; S n; d] = Some [b; n; d].
Proof. unfold Shape.slice_axis1_from1. simpl. now rewrite Nat.sub_0_r. Qed.

Lemma linear_predict_shape c B :
  (max_col_diff c + max_row_diff c = 38)%nat ->
  Shape.linear_predict c [B; S (max_curves_num c); attn_dim c]
  = Some {| Shape.cls_shape := [B; max_curves_num c];
            Shape.segments_shape := [B; max_curves_num c; 6%nat];
            Shape.diffs_shape :=
              [B; max_curves_num c; (max_col_diff c + max_row_diff c)%nat];
            Shape.curve_latent_shape := [B; max_curves_num c; 12%nat] |}.
Proof.
  intros H. unfold Shape.linear_predict.
  rewrite cls_token_shape. run. rewrite linear_rank2. run.
  rewrite features_tokens_shape. run. rewrite linear_rank3. run.
  replace (6 + max_col_diff c + max_row_diff c)%nat with 44%nat by lia.
  rewrite H. reflexivity.
Qed.

(** The feature layer has the fixed width 56, so the three slices have the
    asserted widths only when the offset classes add up to 38. *)
Lemma linear_predict_needs_38 c dec :
  (max_col_diff c + max_row_diff c <> 38)%nat -> Shape.linear_predict c dec = None.
Proof.
  intros H. unfold Shape.linear_predict.
  destruct (Shape.index_axis1_0 dec) as [tok|] eqn:E1; [|reflexivity]. run.
  destruct (Shape.linear (attn_dim c) (max_curves_num c) tok) as [pc|];
    [|reflexivity].
  run.
  destruct dec as [|b [|n [|d [|? ?]]]]; try discriminate.
  cbn [Shape.slice_axis1_from1]. run.
  destruct (Shape.linear _ _ _) as [feats|] eqn:E2; [|reflexivity].
  apply linear_rank3_inv in E2. destruct E2 as [_ ->]. run.
  change (Shape.slice_last 0 6 [b; (n - Nat.min 1 n)%nat; Shape.out_dim])
    with (Some [b; (n - Nat.min 1 n)%nat; 6%nat]).
  run. cbn [Shape.last_dim last Nat.eqb assert]. run.
  unfold Shape.slice_last, Shape.slice_last_from.
  cbn [rev app]. run. cbn [Shape.last_dim last].
  unfold Shape.slice_len, Shape.out_dim.
  set (w := (max_col_diff c + max_row_diff c)%nat) in *.
  destruct (Nat.eqb_spec (Nat.min (6 + max_col_diff c + max_row_diff c) (6 + 6 + 32 + 12) - Nat.min 6 (6 + 6 + 32 + 12)) w) as [E3|E3];
    [|reflexivity].
  cbn [assert]. run. cbn [Shape.last_dim last].
  destruct (Nat.eqb_spec (6 + 6 + 32 + 12 - Nat.min (6 + max_col_diff c + max_row_diff c) (6 + 6 + 32 + 12)) 12) as [E4|E4];
    [|reflexivity].
  exfalso. subst w. lia.
Qed.

Lemma mlp_predict_shape c B :
  Shape.mlp_predict c [B; S (max_curves_num c); attn_dim c]
  = Some {| Shape.cls_shape := [B; max_curves_num c];
            Shape.segments_shape := [B; max_curves_num c; 6%nat];
            Shape.diffs_shape :=
              [B; max_curves_num c; (max_col_diff c + max_row_diff c)%nat];
            Shape.curve_latent_shape := [B; max_curves_num c; 12%nat] |}.
Proof.
  unfold Shape.mlp_predict, Shape.mlp.
  rewrite cls_token_shape. run. rewrite features_tokens_shape. run.
  rewrite linear_rank2. run. rewrite !linear_rank3. reflexivity.
Qed.

Lemma predict_shape c B :
  use_mlp_predict c = true \/ (max_col_diff c + max_row_diff c = 38)%nat ->
  Shape.predict c [B; S (max_curves_num c); attn_dim c]
  = Some {| Shape.cls_shape := [B; max_curves_num c];
            Shape.segments_shape := [B; max_curves_num c; 6%nat];
            Shape.diffs_shape :=
              [B; max_curves_num c; (max_col_diff c + max_row_diff c)%nat];
            Shape.curve_latent_shape := [B; max_curves_num c; 12%nat] |}.
Proof.
  intros H. unfold Shape.predict.
  destruct (use_mlp_predict c) eqn:E.
  - apply mlp_predict_shape.
  - destruct H as [H|H]; [discriminate|]. now apply linear_predict_shape.
Qed.

(** C6.  Linear prediction strategy with eight column classes and 32 row
    classes: the feature layer still has width [6 + 6 + 32 + 12 = 56], not
    [6 + (8 + 32) + 12 = 58], and [linear_predict] fails on its width
    assertions for any decoder output. *)
Theorem linear_features_width_is_fixed :
  Shape.out_dim = 56%nat /\
  (6 + (max_col_diff wide_col_config + max_row_diff wide_col_config) + 12 = 58)%nat /\
  Shape.linear_predict wide_col_config [2; 5; 512]%nat = None.
Proof.
  split; [reflexivity|]. split; [reflexivity|].
  apply linear_predict_needs_38. simpl. discriminate.
Qed.

(** C5.  Decoding with the latent positional bias enabled and eight latent
    tokens: the decoder was built with 64 bias rows, and [decode] fails on a
    latent tensor of shape (2, latent_channels, wireframe_latent_num). *)
Theorem decode_with_latent_pos_emb_fails :
  wireframe_latent_num pos_emb_config = 8%nat /\
  Shape.dec_wireframe_latent_num (Shape.decoder_of pos_emb_config) = 64%nat /\
  Shape.decode pos_emb_config
    [2%nat; latent_channels pos_emb_config; wireframe_latent_num pos_emb_config]
  = None.
Proof. repeat split. Qed.




(** ** The offset tensor *)

Lemma offsets_shape_some c B N flag_diffs :
  (1 <= B)%nat ->
  has_shape2 B N flag_diffs ->
  Encoder1D_embeds_offsets (Shape.encoder_of c) flag_diffs = true ->
  offsets_shape c flag_diffs = Some [B; N; 3%nat].
Proof.
  intros HB [Hl Hf] He. unfold offsets_shape. rewrite He. cbn [assert bind].
  destruct flag_diffs as [|item rest]; [simpl in Hl; lia|].
  assert (Hitem : List.length item = N) by now inversion Hf.
  assert (Hall : forallb (fun i => (List.length i =? List.length item)%nat)
                   (item :: rest) = true).
  { apply forallb_forall. intros i Hi. rewrite Forall_forall in Hf.
    rewrite (Hf i Hi), Hitem. apply Nat.eqb_refl. }
  rewrite Hall, Hl, Hitem. reflexivity.
Qed.

Lemma offsets_shape_none c flag_diffs :
  Encoder1D_embeds_offsets (Shape.encoder_of c) flag_diffs = false ->
  offsets_shape c flag_diffs = None.
Proof. intros He. unfold offsets_shape. now rewrite He. Qed.

(** C4.  Encoding inputs padded to exactly [max_curves_num] segments: for
    every non-empty batch whose offsets, at padded positions too, index the
    encoder's embedding tables, [encode] succeeds and the mean and the
    log-variance of the posterior have shape (B, latent_channels,
    wireframe_latent_num). *)
Theorem encode_shape_at_max_curves_num :
  forall (c : Config) (B : nat) (flag_diffs : FlagDiffs),
    (1 <= B)%nat ->
    has_shape2 B (max_curves_num c) flag_diffs ->
    Encoder1D_embeds_offsets (Shape.encoder_of c) flag_diffs = true ->
    encode_with_offsets c [B; max_curves_num c; 18%nat] flag_diffs
    = Some {| Shape.mean_shape := [B; latent_channels c; wireframe_latent_num c];
              Shape.logvar_shape := [B; latent_channels c; wireframe_latent_num c] |}.
Proof.
  intros c B fds HB Hsh He. unfold encode_with_offsets.
  rewrite (@offsets_shape_some c B (max_curves_num c) fds HB Hsh He). cbn [bind].
  now apply encode_shape.
Qed.

Lemma encode_shape_at_max_curves_num_witness :
  encode_with_offsets scenario_config [2; 4; 18]%nat scenario_flag_diffs
  = Some {| Shape.mean_shape := [2; 4; 8]%nat; Shape.logvar_shape := [2; 4; 8]%nat |}.
Proof.
  apply (@encode_shape_at_max_curves_num scenario_config 2 scenario_flag_diffs).
  - lia.
  - split; [reflexivity|]. repeat constructor.
  - reflexivity.
Defined.

(** Two segment slots where the encoder has four: the offsets index the
    tables, and the positional bias of four rows does not broadcast. *)
Lemma encode_short_input_counterexample :
  (2 <= max_curves_num scenario_config)%nat /\
  Encoder1D_embeds_offsets (Shape.encoder_of scenario_config) short_flag_diffs = true /\
  offsets_shape scenario_config short_flag_diffs = Some [2; 2; 3]%nat /\
  encode_with_offsets scenario_config [2; 2; 18]%nat short_flag_diffs = None.
Proof. split; [simpl; lia|]. repeat split. Qed.

(** ** The default configuration *)

(** With the default arguments the offset classes add up to 38 and the
    decoder has no latent positional bias: decoder and linear heads run. *)
Lemma default_config_decode :
  Shape.decode default_config [1; 8; 64]%nat = Some [1; 129; 512]%nat.
Proof. apply (@decode_shape default_config 1 64). now left. Qed.

Lemma default_config_linear_predict :
  Shape.linear_predict default_config [1; 129; 512]%nat
  = Some {| Shape.cls_shape := [1; 128]%nat;
            Shape.segments_shape := [1; 128; 6]%nat;
            Shape.diffs_shape := [1; 128; 38]%nat;
            Shape.curve_latent_shape := [1; 128; 12]%nat |}.
Proof. apply (@linear_predict_shape default_config 1). reflexivity. Qed.

(** * Further facts about shapes *)

Lemma linear_rank2_inv i o x w s :
  Shape.linear i o [x; w] = Some s -> w = i /\ s = [x; o].
Proof.
  unfold Shape.linear. simpl. destruct (Nat.eqb_spec w i); [|discriminate].
  intros H. injection H as <-. auto.
Qed.

Lemma linear_rank3_none i o x y w : w <> i -> Shape.linear i o [x; y; w] = None.
Proof.
  intros H. unfold Shape.linear. simpl. now destruct (Nat.eqb_spec w i).
Qed.

Lemma linear_rank2_none i o x w : w <> i -> Shape.linear i o [x; w] = None.
Proof.
  intros H. unfold Shape.linear. simpl. now destruct (Nat.eqb_spec w i).
Qed.

Lemma linear_predict_tokens c B n :
  (max_col_diff c + max_row_diff c = 38)%nat ->
  Shape.linear_predict c [B; S n; attn_dim c]
  = Some {| Shape.cls_shape := [B; max_curves_num c];
            Shape.segments_shape := [B; n; 6%nat];
            Shape.diffs_shape := [B; n; (max_col_diff c + max_row_diff c)%nat];
            Shape.curve_latent_shape := [B; n; 12%nat] |}.
Proof.
  intros H. unfold Shape.linear_predict.
  rewrite cls_token_shape. run. rewrite linear_rank2. run.
  rewrite features_tokens_shape. run. rewrite linear_rank3. run.
  replace (6 + max_col_diff c + max_row_diff c)%nat with 44%nat by lia.
  rewrite H. reflexivity.
Qed.

Lemma mlp_predict_tokens c B n :
  Shape.mlp_predict c [B; S n; attn_dim c]
  = Some {| Shape.cls_shape := [B; max_curves_num c];
            Shape.segments_shape := [B; n; 6%nat];
            Shape.diffs_shape := [B; n; (max_col_diff c + max_row_diff c)%nat];
            Shape.curve_latent_shape := [B; n; 12%nat] |}.
Proof.
  unfold Shape.mlp_predict, Shape.mlp.
  rewrite cls_token_shape. run. rewrite features_tokens_shape. run.
  rewrite linear_rank2. run. rewrite !linear_rank3. reflexivity.
Qed.

(** X1.  [linear_predict] on a decoder output of shape (B, 1 + n, attn_dim)
    succeeds exactly when the configured offset classes add up to 38: then
    it yields shapes (B, max_curves_num), (B, n, 6), (B, n, 38) and
    (B, n, 12); otherwise it fails on every input. *)
Theorem linear_predict_succeeds_iff_38 :
  forall (c : Config) (B n : nat),
    ((max_col_diff c + max_row_diff c = 38)%nat ->
     Shape.linear_predict c [B; S n; attn_dim c]
     = Some {| Shape.cls_shape := [B; max_curves_num c];
               Shape.segments_shape := [B; n; 6%nat];
               Shape.diffs_shape := [B; n; 38%nat];
               Shape.curve_latent_shape := [B; n; 12%nat] |}) /\
    ((max_col_diff c + max_row_diff c <> 38)%nat ->
     forall dec, Shape.linear_predict c dec = None).
Proof.
  intros c B n. split.
  - intros H. rewrite (linear_predict_tokens c B n H). now rewrite H.
  - intros H dec. now apply linear_predict_needs_38.
Qed.

(** X2.  [mlp_predict] on a decoder output of shape (B, 1 + n, attn_dim)
    succeeds for every configuration, with shapes (B, max_curves_num),
    (B, n, 6), (B, n, max_col_diff + max_row_diff) and (B, n, 12); it fails
    on an output without tokens and on a wrong token width; and whenever
    [linear_predict] succeeds the two strategies give the same shapes. *)
Theorem mlp_predict_shapes :
  forall (c : Config) (B n : nat),
    Shape.mlp_predict c [B; S n; attn_dim c]
    = Some {| Shape.cls_shape := [B; max_curves_num c];
              Shape.segments_shape := [B; n; 6%nat];
              Shape.diffs_shape := [B; n; (max_col_diff c + max_row_diff c)%nat];
              Shape.curve_latent_shape := [B; n; 12%nat] |} /\
    (forall d, Shape.mlp_predict c [B; 0%nat; d] = None) /\
    (forall d, d <> attn_dim c -> Shape.mlp_predict c [B; S n; d] = None) /\
    (forall p, Shape.linear_predict c [B; S n; attn_dim c] = Some p ->
               Shape.mlp_predict c [B; S n; attn_dim c] = Some p).
Proof.
  intros c B n. split; [apply mlp_predict_tokens|]. split; [reflexivity|]. split.
  - intros d Hd. unfold Shape.mlp_predict, Shape.mlp.
    rewrite cls_token_shape. run. rewrite features_tokens_shape. run.
    now rewrite linear_rank2_none.
  - intros p Hp.
    destruct (Nat.eq_dec (max_col_diff c + max_row_diff c) 38) as [E|E].
    + rewrite (linear_predict_tokens c B n E) in Hp. rewrite <- Hp.
      apply mlp_predict_tokens.
    + rewrite (linear_predict_needs_38 c _ E) in Hp. discriminate.
Qed.

(** X3.  Without the latent positional bias, [decode] succeeds on a latent
    of shape (B, d, n) exactly when [d = latent_channels], for any number
    [n] of latent tokens, and its output always has shape
    (B, 1 + max_curves_num, attn_dim). *)
Theorem decode_accepts_any_token_count :
  forall (c : Config) (B d n : nat) (s : Shape.shape),
    use_latent_pos_emb c = false ->
    (Shape.decode c [B; d; n] = Some s <->
     d = latent_channels c /\ s = [B; (1 + max_curves_num c)%nat; attn_dim c]).
Proof.
  intros c B d n s Hpos. split.
  - intros H. destruct (Nat.eq_dec d (latent_channels c)) as [->|Hd].
    + rewrite decode_shape in H by now left. injection H as <-. auto.
    + unfold Shape.decode, Shape._decode in H.
      cbn [Shape.swap_last_two bind] in H.
      rewrite linear_rank3_none in H by exact Hd. discriminate.
  - intros [-> ->]. apply decode_shape. now left.
Qed.

Lemma decode_accepts_any_token_count_witness :
  Shape.decode scenario_config [2; 4; 3]%nat = Some [2; 5; 512]%nat /\
  Shape.decode scenario_config [2; 4; 100]%nat = Some [2; 5; 512]%nat.
Proof.
  split.
  - apply (proj2 (@decode_accepts_any_token_count scenario_config 2 4 3 _ eq_refl)).
    split; reflexivity.
  - apply (proj2 (@decode_accepts_any_token_count scenario_config 2 4 100 _ eq_refl)).
    split; reflexivity.
Defined.

(** ** What the encoder requires of its inputs *)

Ltac run_in H := cbn [bind hd_error Shape.embedding Shape.unsqueeze_last app] in H.

Lemma slice_last_rank3 a b x y w :
  Shape.slice_last a b [x; y; w] = Some [x; y; Shape.slice_len a b w].
Proof. reflexivity. Qed.

Lemma slice_last_from_rank3 a x y w :
  Shape.slice_last_from a [x; y; w] = Some [x; y; (w - Nat.min a w)%nat].
Proof. reflexivity. Qed.

Lemma index_last_rank3 i x y w :
  Shape.index_last i [x; y; w] = if (i <? w)%nat then Some [x; y] else None.
Proof. reflexivity. Qed.

Lemma pack_four_inv b n d1 b2 n2 d2 b3 n3 d3 b4 n4 d4 s :
  Shape.pack_b_nl [[b; n; d1]; [b2; n2; d2]; [b3; n3; d3]; [b4; n4; d4]] = Some s ->
  b2 = b /\ n2 = n /\ b4 = b /\ n4 = n.
Proof.
  cbn [Shape.pack_b_nl].
  destruct (Nat.eqb_spec b3 b4), (Nat.eqb_spec n3 n4); cbn [andb];
    try discriminate.
  destruct (Nat.eqb_spec b2 b3), (Nat.eqb_spec n2 n3); cbn [andb];
    try discriminate.
  destruct (Nat.eqb_spec b b2), (Nat.eqb_spec n n2); cbn [andb];
    try discriminate.
  intros _. repeat split; congruence.
Qed.

Lemma unflatten_points_inv bs m d s :
  Shape.unflatten_points bs [m; d] = Some s ->
  (1 <= bs)%nat /\ s = [bs; (m / (bs * 2))%nat; 2%nat; d].
Proof.
  unfold Shape.unflatten_points.
  destruct (Nat.eqb_spec (bs * 2) 0); [discriminate|].
  destruct (m mod (bs * 2) =? 0)%nat; [|discriminate].
  intros H. injection H as <-. split; [lia | reflexivity].
Qed.

(** [Encoder1D.forward] runs only on 18 input channels, at least three
    flag/offset channels, and equal batch and segment axes. *)
Lemma encoder_forward_inv e B N w B' N' f h :
  Shape.Encoder1D_forward e [B; N; w] [B'; N'; f] = Some h ->
  Shape.curve_latent_channels e = 12%nat ->
  w = 18%nat /\ B' = B /\ N' = N /\ (3 <= f)%nat.
Proof.
  unfold Shape.Encoder1D_forward. intros H Hch. run_in H.
  rewrite slice_last_rank3 in H. cbn [bind] in H.
  apply bind_some in H. destruct H as [pts [_ H]].
  apply bind_some in H. destruct H as [pts' [_ H]].
  apply bind_some in H. destruct H as [emb [Hemb H]].
  apply bind_some in H. destruct H as [emb' [Hemb' H]].
  apply bind_some in H. destruct H as [emb'' [Hemb'' H]].
  rewrite index_last_rank3 in H.
  destruct (0 <? f)%nat; [|discriminate]. cbn [bind] in H.
  rewrite slice_last_from_rank3 in H. cbn [bind] in H.
  rewrite !index_last_rank3 in H.
  destruct (0 <? f - Nat.min 1 f)%nat; [|discriminate]. cbn [bind] in H.
  destruct (Nat.ltb_spec 1 (f - Nat.min 1 f)) as [Hf|Hf]; [|discriminate].
  cbn [bind] in H.
  rewrite slice_last_from_rank3 in H. cbn [bind] in H.
  apply bind_some in H. destruct H as [lat [Hlat H]].
  apply linear_rank3_inv in Hlat. destruct Hlat as [Hw ->].
  apply bind_some in H. destruct H as [packed [Hpack _]].
  rewrite Hch in Hw.
  assert (w = 18%nat) by lia. subst w.
  assert (3 <= f)%nat by lia.
  (* the coordinate embedding has the axes of [xs] *)
  destruct emb as [|m [|d [|? ?]]]; try discriminate.
  apply unflatten_points_inv in Hemb'. destruct Hemb' as [HB ->].
  cbn [Shape.merge_endpoints] in Hemb''. injection Hemb'' as <-.
  cbn [Shape.embedding app] in Hpack.
  apply pack_four_inv in Hpack. destruct Hpack as [-> [-> [HB' HN']]].
  repeat split; auto.
Qed.

Lemma encode_inv c B N w B' N' f p :
  Shape.encode c [B; N; w] [B'; N'; f] = Some p ->
  w = 18%nat /\ B' = B /\ N' = N /\ (3 <= f)%nat.
Proof.
  unfold Shape.encode. intros H.
  apply bind_some in H. destruct H as [h [H _]].
  apply encoder_forward_inv in H; auto.
Qed.

(** X4.  [encode] called directly succeeds only on 18 input channels
    (6 coordinates and 12 latent values), at least three flag/offset
    channels, and equal batch and segment axes of the two inputs. *)
Theorem encode_requires_18_channels :
  forall (c : Config) (B N w B' N' f : nat) (p : Shape.posterior_shape),
    Shape.encode c [B; N; w] [B'; N'; f] = Some p ->
    w = 18%nat /\ B' = B /\ N' = N /\ (3 <= f)%nat.
Proof. intros. eapply encode_inv; eauto. Qed.

Lemma encode_requires_18_channels_witness :
  exists p,
    Shape.encode scenario_config [2; 4; 18]%nat [2; 4; 3]%nat = Some p /\
    (18 = 18 /\ 2 = 2 /\ 4 = 4 /\ 3 <= 3)%nat.
Proof.
  eexists. split; [reflexivity|].
  exact (@encode_requires_18_channels scenario_config 2 4 18 2 4 3 _ eq_refl).
Defined.

(** ** The prediction path of the full model and the fast encoder *)

Lemma slice_first_18 x y w :
  (18 <= w)%nat -> Shape.slice_last 0 18 [x; y; w] = Some [x; y; 18%nat].
Proof.
  intros H. rewrite slice_last_rank3. unfold Shape.slice_len.
  rewrite Nat.min_l by exact H. reflexivity.
Qed.

Lemma slice_first_18_short x y w :
  (w < 18)%nat -> Shape.slice_last 0 18 [x; y; w] = Some [x; y; w].
Proof.
  intros H. rewrite slice_last_rank3. unfold Shape.slice_len.
  rewrite Nat.min_r by lia. cbn [Nat.min]. now rewrite Nat.sub_0_r.
Qed.

Lemma encode_none_unless_18 c B N w fd :
  w <> 18%nat -> Shape.encode c [B; N; w] fd = None.
Proof.
  intros Hw. destruct (Shape.encode c [B; N; w] fd) as [p|] eqn:E; [|reflexivity].
  exfalso. unfold Shape.encode in E.
  apply bind_some in E. destruct E as [h [E _]].
  unfold Shape.Encoder1D_forward in E. run_in E.
  rewrite slice_last_rank3 in E. cbn [bind] in E.
  do 9 (apply bind_some in E; destruct E as [? [_ E]]).
  rewrite slice_last_from_rank3 in E. cbn [bind] in E.
  apply bind_some in E. destruct E as [lat [Hlat _]].
  apply linear_rank3_inv in Hlat. destruct Hlat as [Hlat _].
  cbn [Shape.curve_latent_channels Shape.encoder_of] in Hlat. lia.
Qed.

(** X5.  The prediction path of [AutoencoderKLWireframe.forward]: on a
    non-empty batch padded to [max_curves_num] segments with at least 18
    channels, with offsets that index the encoder's tables at every
    position, for a configuration on which decoder and heads run, decoding
    the encoded latent gives shape (B, 1 + max_curves_num, attn_dim) and the
    predictions have shapes (B, max_curves_num), (B, max_curves_num, 6),
    (B, max_curves_num, max_col_diff + max_row_diff) and
    (B, max_curves_num, 12), whatever the number of input channels; with an
    offset outside the tables [forward] fails. *)
Theorem forward_prediction_shapes :
  forall (c : Config) (B w : nat) (flag_diffs : FlagDiffs),
    (1 <= B)%nat -> (18 <= w)%nat ->
    has_shape2 B (max_curves_num c) flag_diffs ->
    use_latent_pos_emb c = false \/ wireframe_latent_num c = 64%nat ->
    use_mlp_predict c = true \/ (max_col_diff c + max_row_diff c = 38)%nat ->
    (Encoder1D_embeds_offsets (Shape.encoder_of c) flag_diffs = true ->
     (forall p,
         encode_with_offsets c [B; max_curves_num c; 18%nat] flag_diffs = Some p ->
         Shape.decode c (Shape.mean_shape p)
         = Some [B; (1 + max_curves_num c)%nat; attn_dim c]) /\
     forward_with_offsets c [B; max_curves_num c; w] flag_diffs
     = Some {| Shape.cls_shape := [B; max_curves_num c];
               Shape.segments_shape := [B; max_curves_num c; 6%nat];
               Shape.diffs_shape :=
                 [B; max_curves_num c; (max_col_diff c + max_row_diff c)%nat];
               Shape.curve_latent_shape := [B; max_curves_num c; 12%nat] |}) /\
    (Encoder1D_embeds_offsets (Shape.encoder_of c) flag_diffs = false ->
     forward_with_offsets c [B; max_curves_num c; w] flag_diffs = None).
Proof.
  intros c B w fds HB Hw Hsh Hpos Hheads. split.
  - intros He.
    pose proof (@offsets_shape_some c B (max_curves_num c) fds HB Hsh He) as Hoff.
    split.
    + intros p Hp. unfold encode_with_offsets in Hp. rewrite Hoff in Hp.
      cbn [bind] in Hp. rewrite encode_shape in Hp by exact HB. injection Hp as <-.
      cbn [Shape.mean_shape]. now apply decode_shape.
    + unfold forward_with_offsets. rewrite Hoff. cbn [bind].
      unfold Shape.AutoencoderKLWireframe_forward.
      rewrite index_last_rank3. cbn [Nat.ltb Nat.leb bind].
      rewrite slice_first_18 by exact Hw. cbn [bind].
      rewrite encode_shape by exact HB. cbn [bind].
      rewrite slice_last_rank3. cbn [bind Shape.mean_shape].
      rewrite decode_shape by exact Hpos. cbn [bind].
      now apply predict_shape.
  - intros He. unfold forward_with_offsets. now rewrite offsets_shape_none.
Qed.

Lemma forward_prediction_shapes_witness :
  forward_with_offsets scenario_config [2; 4; 30]%nat scenario_flag_diffs
  = Some {| Shape.cls_shape := [2; 4]%nat;
            Shape.segments_shape := [2; 4; 6]%nat;
            Shape.diffs_shape := [2; 4; 38]%nat;
            Shape.curve_latent_shape := [2; 4; 12]%nat |} /\
  forward_with_offsets scenario_config [2; 4; 30]%nat padded_out_of_range = None.
Proof.
  split.
  - refine (proj2 (proj1 (@forward_prediction_shapes scenario_config 2 30
                            scenario_flag_diffs _ _ _ _ _) _)).
    + lia.
    + lia.
    + split; [reflexivity|]. repeat constructor.
    + left. reflexivity.
    + right. reflexivity.
    + reflexivity.
  - refine (proj2 (@forward_prediction_shapes scenario_config 2 30
                     padded_out_of_range _ _ _ _ _) _).
    + lia.
    + lia.
    + split; [reflexivity|]. repeat constructor.
    + left. reflexivity.
    + right. reflexivity.
    + reflexivity.
Defined.

(** X6.  [AutoencoderKLWireframeFastEncode.forward] on a non-empty batch
    padded to [max_curves_num] segments: with at least 18 channels and
    offsets that index the encoder's tables at every position it returns
    shape (B, latent_channels, wireframe_latent_num), and
    (B, 2 * latent_channels, wireframe_latent_num) with [return_std]; with
    fewer than 18 channels, or with an offset outside the tables, it
    fails. *)
Theorem fast_encode_forward_shapes :
  forall (c : Config) (B w : nat) (flag_diffs : FlagDiffs) (return_std : bool),
    (1 <= B)%nat ->
    has_shape2 B (max_curves_num c) flag_diffs ->
    ((18 <= w)%nat ->
     Encoder1D_embeds_offsets (Shape.encoder_of c) flag_diffs = true ->
     FastEncode_forward_with_offsets c [B; max_curves_num c; w] flag_diffs return_std
     = Some [B;
             (if return_std
              then latent_channels c + latent_channels c
              else latent_channels c)%nat;
             wireframe_latent_num c]) /\
    ((w < 18)%nat ->
     forall fds,
       FastEncode_forward_with_offsets c [B; max_curves_num c; w] fds return_std = None) /\
    (Encoder1D_embeds_offsets (Shape.encoder_of c) flag_diffs = false ->
     FastEncode_forward_with_offsets c [B; max_curves_num c; w] flag_diffs return_std
     = None).
Proof.
  intros c B w fds rs HB Hsh. split; [|split].
  - intros Hw He. unfold FastEncode_forward_with_offsets.
    rewrite (@offsets_shape_some c B (max_curves_num c) fds HB Hsh He). cbn [bind].
    unfold Shape.FastEncode_forward.
    rewrite slice_first_18 by exact Hw. cbn [bind].
    rewrite encode_shape by exact HB. cbn [bind Shape.mean_shape Shape.logvar_shape].
    destruct rs; [|reflexivity].
    unfold Shape.cat_dim1. now rewrite !Nat.eqb_refl.
  - intros Hw fds'. unfold FastEncode_forward_with_offsets.
    destruct (offsets_shape c fds') as [sh|]; [|reflexivity]. cbn [bind].
    unfold Shape.FastEncode_forward.
    rewrite slice_first_18_short by exact Hw. cbn [bind].
    rewrite encode_none_unless_18 by lia. reflexivity.
  - intros He. unfold FastEncode_forward_with_offsets.
    now rewrite offsets_shape_none.
Qed.

Lemma fast_encode_forward_shapes_witness :
  FastEncode_forward_with_offsets scenario_config [2; 4; 30]%nat scenario_flag_diffs true
  = Some [2; 8; 8]%nat /\
  FastEncode_forward_with_offsets scenario_config [2; 4; 17]%nat scenario_flag_diffs true
  = None.
Proof.
  assert (Hsh : has_shape2 2 (max_curves_num scenario_config) scenario_flag_diffs).
  { split; [reflexivity|]. repeat constructor. }
  destruct (@fast_encode_forward_shapes scenario_config 2 30 scenario_flag_diffs true)
    as [H _]; [lia | exact Hsh |].
  destruct (@fast_encode_forward_shapes scenario_config 2 17 scenario_flag_diffs true)
    as [_ [H' _]]; [lia | exact Hsh |].
  split; [apply H; [lia | reflexivity] | apply H'; lia].
Defined.

(** * Further facts about the loss and [forward] *)

(** ** Prediction-only calls *)

(** X7.  Prediction-only calls of [forward]: with [return_dict = False] or
    [return_loss = False], once encoding, decoding and the heads succeed,
    [forward] returns the predictions (as a one-element tuple when
    [return_dict = False]); neither the KL term nor [loss] is evaluated, so
    a ground truth on which [loss] fails does not make the call fail. *)
Theorem forward_predictions_skip_loss :
  forall (m : Model) (xs : Tensor3) (flag_diffs : FlagDiffs)
         (sample_posterior return_dict return_loss : bool)
         (generator : option Generator) (posterior : Posterior) (dec : Tensor3)
         (preds : Preds),
    run_encode (net m) (map (map (firstn 18)) xs) flag_diffs = Some posterior ->
    run_decode (net m)
      (if sample_posterior
       then run_sample (net m) posterior generator
       else mode posterior) = Some dec ->
    (if use_mlp_predict (config m)
     then run_mlp_predict (net m) dec
     else run_linear_predict (net m) dec) = Some preds ->
    return_dict = false \/ return_loss = false ->
    forward m xs flag_diffs sample_posterior return_dict generator return_loss
    = Some (if return_dict then PredsDict preds else PredsTuple preds).
Proof.
  intros m xs fds sp rd rl g posterior dec preds He Hd Hp Hflags.
  unfold forward. rewrite He. cbn [bind]. rewrite Hd. cbn [bind].
  rewrite Hp. cbn [bind].
  destruct rd; cbn [negb]; [|reflexivity].
  destruct Hflags as [Hf | ->]; [discriminate | reflexivity].
Qed.

(** X8.  In a prediction-only call, [forward] reads [xs] through its first
    18 channels only: two inputs that agree on these channels give the same
    result, whatever their spread channels. *)
Theorem forward_predictions_ignore_spread_channels :
  forall (m : Model) (xs xs' : Tensor3) (flag_diffs : FlagDiffs)
         (sample_posterior return_dict return_loss : bool)
         (generator : option Generator),
    map (map (firstn 18)) xs = map (map (firstn 18)) xs' ->
    return_dict = false \/ return_loss = false ->
    forward m xs flag_diffs sample_posterior return_dict generator return_loss
    = forward m xs' flag_diffs sample_posterior return_dict generator return_loss.
Proof.
  intros m xs xs' fds sp rd rl g H Hflags. unfold forward. rewrite H.
  destruct (run_encode (net m) (map (map (firstn 18)) xs') fds) as [p|];
    [|reflexivity].
  cbn [bind]. destruct (run_decode _ _) as [dec|]; [|reflexivity]. cbn [bind].
  destruct (if use_mlp_predict (config m) then _ else _) as [preds|];
    [|reflexivity].
  cbn [bind]. destruct rd; cbn [negb]; [|reflexivity].
  destruct Hflags as [Hf | ->]; [discriminate | reflexivity].
Qed.

(** ** The spread half of the latent ground truth *)

Lemma clamp_bounds x : 0 <= clamp 0 1 x <= 1.
Proof.
  unfold clamp. split.
  - apply Rmin_glb; [apply Rmax_r | lra].
  - apply Rmin_r.
Qed.

Lemma clamp_idempotent x : clamp 0 1 (clamp 0 1 x) = clamp 0 1 x.
Proof.
  destruct (clamp_bounds x) as [H0 H1]. unfold clamp at 1.
  rewrite Rmax_left by exact H0. now rewrite Rmin_left.
Qed.

Lemma skipn_clamp_spread row :
  skipn 12 (clamp_spread row) = map (clamp 0 1) (skipn 12 row).
Proof.
  unfold clamp_spread. rewrite skipn_app.
  rewrite skipn_all2 by (rewrite length_firstn; lia). cbn [app].
  destruct (Nat.le_gt_cases 12 (List.length row)) as [H|H].
  - rewrite length_firstn, Nat.min_l by exact H. reflexivity.
  - rewrite (skipn_all2 row) by lia. destruct (12 - _)%nat; reflexivity.
Qed.

Lemma firstn_clamp_spread row : firstn 12 (clamp_spread row) = firstn 12 row.
Proof.
  unfold clamp_spread. rewrite firstn_app, firstn_firstn, Nat.min_id.
  destruct (Nat.le_gt_cases 12 (List.length row)) as [H|H].
  - rewrite length_firstn, Nat.min_l by exact H. cbn. apply app_nil_r.
  - rewrite (skipn_all2 row) by lia. cbn [map]. rewrite firstn_nil.
    apply app_nil_r.
Qed.

(** X9.  The latent-regression term sees the spread half of the ground
    truth only through [clamp(., 0, 1)]: clamping the spread beforehand
    does not change the term. *)
Theorem latent_loss_reads_clamped_spread :
  forall (pred_curve_latent_mu gt_curve_latent : Tensor3) (xs_mask : Mask),
    curve_latent_loss_term pred_curve_latent_mu
      (map (map clamp_spread) gt_curve_latent) xs_mask
    = curve_latent_loss_term pred_curve_latent_mu gt_curve_latent xs_mask.
Proof.
  intros pred gt mask. unfold curve_latent_loss_term.
  assert (Hs : tensor3_map (clamp 0 1) (map (map (skipn 12)) (map (map clamp_spread) gt))
               = tensor3_map (clamp 0 1) (map (map (skipn 12)) gt)).
  { unfold tensor3_map. rewrite !map_map. apply map_ext. intros item.
    rewrite !map_map. apply map_ext. intros row.
    rewrite skipn_clamp_spread, map_map. apply map_ext. apply clamp_idempotent. }
  assert (Hf : map (map (firstn 12)) (map (map clamp_spread) gt)
               = map (map (firstn 12)) gt).
  { rewrite map_map. apply map_ext. intros item.
    rewrite map_map. apply map_ext. apply firstn_clamp_spread. }
  rewrite Hs, Hf. reflexivity.
Qed.

(** ** The weights lie in a fixed positive range *)

Lemma exp_2_gt_4 : 4 < exp 2.
Proof.
  replace 2 with (1 + 1) at 1 by lra. rewrite exp_plus.
  assert (H : 2 < exp 1) by (generalize (exp_ineq1 1); lra).
  nra.
Qed.

Lemma ln_between_0_and_2 x : 1 < x -> x < 4 -> 0 < ln x < 2.
Proof.
  intros H1 H4. split.
  - rewrite <- ln_1. apply ln_increasing; lra.
  - rewrite <- (ln_exp 2). apply ln_increasing; [lra|].
    generalize exp_2_gt_4. lra.
Qed.

Lemma mu_weight_bounds s :
  0.2 < 1.2 - 0.5 * ln (clamp 0 1 s + 1.7183) < 1.2.
Proof.
  destruct (clamp_bounds s) as [H0 H1].
  destruct (@ln_between_0_and_2 (clamp 0 1 s + 1.7183)) as [Ha Hb]; lra.
Qed.

Lemma mu_weights_of_used pred gt mask :
  curve_latent_loss_term pred gt mask
  = (mse <- mse_loss_fn pred (map (map (firstn 12)) gt) ;;
     weighted <- tensor3_zip Rmult (mu_weights_of gt) mse ;;
     sel <- select3 weighted (repeat_mask 12 mask) ;;
     Some (Rmean sel)).
Proof. reflexivity. Qed.

Lemma mu_weights_bounds gt :
  Forall (Forall (Forall (fun w => 0.2 < w < 1.2))) (mu_weights_of gt).
Proof.
  unfold mu_weights_of, tensor3_map. rewrite !map_map.
  apply Forall_map, Forall_forall. intros item _. rewrite !map_map.
  apply Forall_map, Forall_forall. intros row _. rewrite !map_map.
  apply Forall_map, Forall_forall. intros s _. apply mu_weight_bounds.
Qed.

(** X10.  The per-element weights of the latent regression,
    [1.2 - 0.5 * log(clamp(spread, 0, 1) + 1.7183)], lie strictly between
    0.2 and 1.2 for every ground-truth spread; these are the weights that
    multiply the squared errors in the latent term. *)
Theorem mu_weights_in_range :
  forall (gt_curve_latent : Tensor3),
    Forall (Forall (Forall (fun w => 0.2 < w < 1.2))) (mu_weights_of gt_curve_latent) /\
    (forall pred xs_mask,
        curve_latent_loss_term pred gt_curve_latent xs_mask
        = (mse <- mse_loss_fn pred (map (map (firstn 12)) gt_curve_latent) ;;
           weighted <- tensor3_zip Rmult (mu_weights_of gt_curve_latent) mse ;;
           sel <- select3 weighted (repeat_mask 12 xs_mask) ;;
           Some (Rmean sel))).
Proof.
  intros gt. split; [apply mu_weights_bounds | intros; reflexivity].
Qed.

Lemma linspace_nth a b n i d :
  (i < n)%nat ->
  nth i (linspace a b n) d = a + INR i * ((b - a) / INR (n - 1)).
Proof.
  intros H. unfold linspace.
  rewrite (nth_indep _ d (a + INR 0 * ((b - a) / INR (n - 1))))
    by now rewrite length_map, length_seq.
  rewrite (map_nth (fun i => a + INR i * ((b - a) / INR (n - 1)))).
  now rewrite seq_nth.
Qed.

(** The points of [linspace(0, 2, n)] lie in [0, 2] and increase. *)
Lemma linspace_0_2_range n i :
  (i < n)%nat -> 0 <= 0 + INR i * ((2 - 0) / INR (n - 1)) <= 2.
Proof.
  intros H. destruct (Nat.eq_dec (n - 1) 0) as [E|E].
  - assert (i = 0)%nat by lia. subst i. change (INR 0) with 0. rewrite !Rmult_0_l. lra.
  - assert (Hn : 0 < INR (n - 1)) by (apply lt_0_INR; lia).
    assert (Hi : 0 <= INR i <= INR (n - 1))
      by (split; [apply pos_INR | apply le_INR; lia]).
    replace (0 + INR i * ((2 - 0) / INR (n - 1)))
      with (2 * (INR i / INR (n - 1))) by (field; lra).
    assert (0 <= INR i / INR (n - 1) <= 1).
    { split.
      - apply Rmult_le_pos; [lra|]. left. now apply Rinv_0_lt_compat.
      - apply (Rmult_le_reg_r (INR (n - 1))); [exact Hn|].
        unfold Rdiv. rewrite Rmult_assoc, Rinv_l by lra. lra. }
    lra.
Qed.

Lemma linspace_0_2_increasing n i j :
  (i <= j)%nat -> (j < n)%nat ->
  0 + INR i * ((2 - 0) / INR (n - 1)) <= 0 + INR j * ((2 - 0) / INR (n - 1)).
Proof.
  intros Hij Hj. destruct (Nat.eq_dec (n - 1) 0) as [E|E].
  - assert (i = 0 /\ j = 0)%nat as [-> ->] by lia. apply Rle_refl.
  - assert (Hn : 0 < INR (n - 1)) by (apply lt_0_INR; lia).
    assert (Hc : 0 < (2 - 0) / INR (n - 1)).
    { apply Rmult_lt_0_compat; [lra|]. now apply Rinv_0_lt_compat. }
    assert (INR i <= INR j) by now apply le_INR.
    nra.
Qed.

Lemma col_weights_nth c n i d :
  (i < max_curves_num c)%nat ->
  nth i (col_weights (init c n)) d
  = 1.2 - 0.2 * ln (0 + INR i * ((2 - 0) / INR (max_curves_num c - 1)) + 1.7183).
Proof.
  intros H. unfold init. cbn [col_weights].
  rewrite (nth_indep _ d ((fun x => 1.2 - 0.2 * ln (x + 1.7183)) 0))
    by now rewrite length_map, linspace_length.
  rewrite (map_nth (fun x => 1.2 - 0.2 * ln (x + 1.7183))).
  now rewrite linspace_nth.
Qed.

(** X11.  The position weights [col_weights] built by [__init__] form a
    vector of length [max_curves_num] whose entries lie strictly between 0.8
    and 1.2 and do not increase with the position. *)
Theorem col_weights_decay :
  forall (c : Config) (n : Submodules),
    let cw := col_weights (init c n) in
    List.length cw = max_curves_num c /\
    (forall i, (i < max_curves_num c)%nat -> 0.8 < nth i cw 0 < 1.2) /\
    (forall i j, (i <= j)%nat -> (j < max_curves_num c)%nat ->
                 nth j cw 0 <= nth i cw 0).
Proof.
  intros c n cw. unfold cw. split; [|split].
  - unfold init. cbn [col_weights]. now rewrite length_map, linspace_length.
  - intros i Hi. rewrite col_weights_nth by exact Hi.
    destruct (linspace_0_2_range Hi) as [H0 H2].
    destruct (@ln_between_0_and_2
                (0 + INR i * ((2 - 0) / INR (max_curves_num c - 1)) + 1.7183));
      lra.
  - intros i j Hij Hj. rewrite !col_weights_nth by lia.
    destruct (linspace_0_2_range (Nat.le_lt_trans _ _ _ Hij Hj)) as [H0 _].
    pose proof (linspace_0_2_increasing Hij Hj) as Hinc.
    destruct Hinc as [Hlt | Heq].
    + assert (ln (0 + INR i * ((2 - 0) / INR (max_curves_num c - 1)) + 1.7183)
              < ln (0 + INR j * ((2 - 0) / INR (max_curves_num c - 1)) + 1.7183))
        by (apply ln_increasing; lra).
      lra.
    + rewrite Heq. lra.
Qed.

(** ** The loss on inputs of consistent shape *)

Lemma zipE_shape {A B C : Type} (Pa : A -> Prop) (Pb : B -> Prop) (Pc : C -> Prop)
  (f : A -> B -> option C) l1 l2 :
  (forall a b, Pa a -> Pb b -> exists c, f a b = Some c /\ Pc c) ->
  Forall Pa l1 -> Forall Pb l2 -> List.length l1 = List.length l2 ->
  exists r, zipE f l1 l2 = Some r /\ List.length r = List.length l1 /\ Forall Pc r.
Proof.
  intros Hf H1. revert l2.
  induction H1 as [|a l1 Ha H1 IH]; intros l2 H2 Hlen.
  - destruct l2; [|discriminate]. exists []. repeat split; constructor.
  - destruct l2 as [|b l2]; [discriminate|].
    inversion H2 as [|? ? Hb H2']; subst. injection Hlen as Hlen.
    destruct (Hf a b Ha Hb) as [c [Hc Hpc]].
    destruct (IH l2 H2' Hlen) as [r [Hr [Hlr Hpr]]].
    exists (c :: r). cbn [zipE]. rewrite Hc. cbn [bind]. rewrite Hr. cbn [bind].
    repeat split; [simpl; congruence | now constructor].
Qed.

Lemma select_with_some {A M B : Type} (Pa : A -> Prop) (Pm : M -> Prop)
  (f : A -> M -> option (list B)) t m :
  (forall a b, Pa a -> Pm b -> exists l, f a b = Some l) ->
  Forall Pa t -> Forall Pm m -> List.length t = List.length m ->
  exists l, select_with f t m = Some l.
Proof.
  intros Hf H1. revert m.
  induction H1 as [|a t Ha H1 IH]; intros m H2 Hlen.
  - destruct m; [|discriminate]. exists []. reflexivity.
  - destruct m as [|b m]; [discriminate|].
    inversion H2 as [|? ? Hb H2']; subst. injection Hlen as Hlen.
    destruct (Hf a b Ha Hb) as [x Hx].
    destruct (IH m H2' Hlen) as [y Hy].
    exists (x ++ y). cbn [select_with]. rewrite Hx. cbn [bind]. rewrite Hy.
    reflexivity.
Qed.

Lemma map2E_shape {A B C : Type} (f : A -> B -> C) (c : nat) p g :
  List.length p = c -> List.length g = c ->
  exists r, map2E f p g = Some r /\ List.length r = c.
Proof.
  intros Hp Hg. rewrite map2E_total by congruence. eexists. split; [reflexivity|].
  rewrite length_map, length_combine, Hp, Hg. apply Nat.min_id.
Qed.

Lemma tensor2_zip_shape {A B C : Type} (f : A -> B -> C) (n c : nat) p g :
  has_shape2 n c p -> has_shape2 n c g ->
  exists r, tensor2_zip f p g = Some r /\ has_shape2 n c r.
Proof.
  intros [Hlp Hp] [Hlg Hg].
  destruct (@zipE_shape _ _ _ (fun r => List.length r = c) (fun r => List.length r = c)
              (fun r => List.length r = c) (map2E f) p g) as [r [Hr [Hl HF]]];
    auto; try congruence.
  - intros a b Ha Hb. now apply map2E_shape.
  - exists r. split; [exact Hr|]. split; [congruence | exact HF].
Qed.

Lemma tensor3_zip_shape {A B C : Type} (f : A -> B -> C) (b n c : nat) p g :
  has_shape3 b n c p -> has_shape3 b n c g ->
  exists r, tensor3_zip f p g = Some r /\ has_shape3 b n c r.
Proof.
  intros [Hlp Hp] [Hlg Hg].
  destruct (@zipE_shape _ _ _ (has_shape2 n c) (has_shape2 n c) (has_shape2 n c)
              (tensor2_zip f) p g) as [r [Hr [Hl HF]]];
    auto; try congruence.
  - intros x y Hx Hy. now apply tensor2_zip_shape.
  - exists r. split; [exact Hr|]. split; [congruence | exact HF].
Qed.

Lemma select1_some {A : Type} (c : nat) (t : list A) (m : list bool) :
  List.length t = c -> List.length m = c -> exists l, select1 t m = Some l.
Proof.
  intros Ht Hm. unfold select1.
  apply select_with_some with (Pa := fun _ => True) (Pm := fun _ => True).
  - intros a b _ _. eexists. reflexivity.
  - apply Forall_forall. auto.
  - apply Forall_forall. auto.
  - congruence.
Qed.

Lemma select2_some {A : Type} (n c : nat) (t : list (list A)) (m : list (list bool)) :
  has_shape2 n c t -> has_shape2 n c m -> exists l, select2 t m = Some l.
Proof.
  intros [Hlt Ht] [Hlm Hm]. unfold select2.
  apply select_with_some with (Pa := fun r => List.length r = c)
                              (Pm := fun r => List.length r = c);
    auto; try congruence.
  intros a b Ha Hb. now apply select1_some with (c := c).
Qed.

Lemma select3_some {A : Type} (b n c : nat) (t : list (list (list A))) m :
  has_shape3 b n c t -> has_shape3 b n c m -> exists l, select3 t m = Some l.
Proof.
  intros [Hlt Ht] [Hlm Hm]. unfold select3.
  apply select_with_some with (Pa := has_shape2 n c) (Pm := has_shape2 n c);
    auto; try congruence.
  intros x y Hx Hy. now apply select2_some with (n := n) (c := c).
Qed.

Lemma repeat_mask_shape b n r (mask : Mask) :
  has_shape2 b n mask -> has_shape3 b n r (repeat_mask r mask).
Proof.
  intros [Hl Hm]. unfold repeat_mask. split; [now rewrite length_map|].
  apply Forall_map. revert Hm. apply Forall_impl. intros mb Hmb.
  split; [now rewrite length_map|].
  apply Forall_map, Forall_forall. intros x _. apply repeat_length.
Qed.

Lemma rows_map_shape {A B : Type} (g : list A -> list B) b n c c'
  (t : list (list (list A))) :
  (forall row, List.length row = c -> List.length (g row) = c') ->
  has_shape3 b n c t -> has_shape3 b n c' (map (map g) t).
Proof.
  intros Hg [Hl Ht]. split; [now rewrite length_map|].
  apply Forall_map. revert Ht. apply Forall_impl. intros item [Hli Hi].
  split; [now rewrite length_map|].
  apply Forall_map. revert Hi. apply Forall_impl. exact Hg.
Qed.

Lemma tensor3_map_shape {A B : Type} (g : A -> B) b n c (t : list (list (list A))) :
  has_shape3 b n c t -> has_shape3 b n c (tensor3_map g t).
Proof.
  unfold tensor3_map. apply rows_map_shape. intros row H. now rewrite length_map.
Qed.

Lemma offset_ce_shape {A : Type} (f : list R -> FlagDiff -> option A) b n c
  (pred : Tensor3) (gfd : FlagDiffs) :
  (forall logits d, List.length logits = c -> exists x, f logits d = Some x) ->
  has_shape3 b n c pred -> has_shape2 b n gfd ->
  exists r, zipE (zipE f) pred gfd = Some r /\ has_shape2 b n r.
Proof.
  intros Hf [Hlp Hp] [Hlg Hg].
  destruct (@zipE_shape _ _ _ (has_shape2 n c) (fun item => List.length item = n)
              (fun row => List.length row = n) (zipE f) pred gfd)
    as [r [Hr [Hl HF]]]; auto; try congruence.
  - intros item fds [Hli Hi] Hfds.
    destruct (@zipE_shape _ _ _ (fun row => List.length row = c) (fun _ => True)
                (fun _ => True) f item fds) as [r [Hr [Hl _]]];
      auto; try congruence.
    + intros logits d Hlog _. destruct (Hf logits d Hlog) as [x Hx]. eauto.
    + apply Forall_forall. auto.
    + exists r. split; [exact Hr | congruence].
  - exists r. split; [exact Hr|]. split; [congruence | exact HF].
Qed.

Lemma col_logits_some k c logits :
  (k <= c)%nat -> List.length logits = c -> exists l, col_logits k logits = Some l.
Proof.
  intros Hk Hl. unfold col_logits.
  destruct (Nat.leb_spec k (List.length logits)); [|lia]. eexists. reflexivity.
Qed.

Lemma row_logits_some k c logits :
  (k <= c)%nat -> List.length logits = c -> exists l, row_logits k logits = Some l.
Proof.
  intros Hk Hl. unfold row_logits.
  destruct (Nat.leb_spec k (List.length logits)); [|lia]. eexists. reflexivity.
Qed.

Ltac shape_of_literal :=
  repeat first [ reflexivity | split | apply Forall_cons | apply Forall_nil ].

(** ** Signs of the regression terms *)

Lemma Rsum_nonneg l : Forall (fun x => 0 <= x) l -> 0 <= Rsum l.
Proof.
  induction 1 as [|x l Hx _ IH]; simpl; [apply Rle_refl | lra].
Qed.

Lemma Rmean_nonneg l : Forall (fun x => 0 <= x) l -> 0 <= Rmean l.
Proof.
  intros H. unfold Rmean, Rdiv. apply Rmult_le_pos; [now apply Rsum_nonneg|].
  destruct (Req_dec (INR (List.length l)) 0) as [E|E].
  - rewrite E, Rinv_0. apply Rle_refl.
  - left. apply Rinv_0_lt_compat.
    destruct (pos_INR (List.length l)); [assumption | congruence].
Qed.

Lemma zipE_Forall {A B C : Type} (Pa : A -> Prop) (Pb : B -> Prop) (Pc : C -> Prop)
  (f : A -> B -> option C) l1 l2 r :
  (forall a b c, Pa a -> Pb b -> f a b = Some c -> Pc c) ->
  Forall Pa l1 -> Forall Pb l2 -> zipE f l1 l2 = Some r -> Forall Pc r.
Proof.
  intros Hf H1. revert l2 r.
  induction H1 as [|a l1 Ha H1 IH]; intros l2 r H2 Hr.
  - destruct l2; [|discriminate]. injection Hr as <-. constructor.
  - destruct l2 as [|b l2]; [discriminate|].
    inversion H2 as [|? ? Hb H2']; subst. cbn [zipE] in Hr.
    apply bind_some in Hr. destruct Hr as [c [Hc Hr]].
    apply bind_some in Hr. destruct Hr as [r' [Hr' Hr]].
    injection Hr as <-. constructor; eauto.
Qed.

Lemma select_with_Forall {A M B : Type} (Pa : A -> Prop) (P : B -> Prop)
  (f : A -> M -> option (list B)) t m l :
  (forall a b x, Pa a -> f a b = Some x -> Forall P x) ->
  Forall Pa t -> select_with f t m = Some l -> Forall P l.
Proof.
  intros Hf H1. revert m l.
  induction H1 as [|a t Ha H1 IH]; intros m l Hl.
  - destruct m; [|discriminate]. injection Hl as <-. constructor.
  - destruct m as [|b m]; [discriminate|]. cbn [select_with] in Hl.
    apply bind_some in Hl. destruct Hl as [x [Hx Hl]].
    apply bind_some in Hl. destruct Hl as [y [Hy Hl]].
    injection Hl as <-. apply Forall_app. split; eauto.
Qed.

Lemma select3_Forall {A : Type} (P : A -> Prop) (t : list (list (list A))) m l :
  Forall (Forall (Forall P)) t -> select3 t m = Some l -> Forall P l.
Proof.
  unfold select3, select2, select1.
  apply select_with_Forall with (Pa := Forall (Forall P)).
  intros item mb x Hitem.
  apply select_with_Forall with (Pa := Forall P); [|exact Hitem].
  intros row mr y Hrow.
  apply select_with_Forall with (Pa := P); [|exact Hrow].
  intros a b z Ha Hz.
  injection Hz as <-. destruct b; repeat constructor; assumption.
Qed.

Lemma tensor3_zip_Forall {A B C : Type} (Pa : A -> Prop) (Pb : B -> Prop)
  (Pc : C -> Prop) (f : A -> B -> C) t w r :
  (forall a b, Pa a -> Pb b -> Pc (f a b)) ->
  Forall (Forall (Forall Pa)) t -> Forall (Forall (Forall Pb)) w ->
  tensor3_zip f t w = Some r -> Forall (Forall (Forall Pc)) r.
Proof.
  intros Hf. unfold tensor3_zip, tensor2_zip, map2E.
  apply zipE_Forall with (Pa := Forall (Forall Pa)) (Pb := Forall (Forall Pb)).
  intros x y z Hx Hy.
  apply zipE_Forall with (Pa := Forall Pa) (Pb := Forall Pb); [|exact Hx|exact Hy].
  intros x' y' z' Hx' Hy'.
  apply zipE_Forall with (Pa := Pa) (Pb := Pb); [|exact Hx'|exact Hy'].
  intros a b c Ha Hb Hc.
  injection Hc as <-. now apply Hf.
Qed.

Lemma all_entries {A : Type} (t : list (list (list A))) :
  Forall (Forall (Forall (fun _ => True))) t.
Proof.
  apply Forall_forall. intros ? _. apply Forall_forall. intros ? _.
  apply Forall_forall. auto.
Qed.

Lemma Forall3_impl {A : Type} (P Q : A -> Prop) (t : list (list (list A))) :
  (forall a, P a -> Q a) ->
  Forall (Forall (Forall P)) t -> Forall (Forall (Forall Q)) t.
Proof.
  intros H. apply Forall_impl. intros ?. apply Forall_impl. intros ?.
  now apply Forall_impl.
Qed.

Lemma mse_nonneg p g t :
  mse_loss_fn p g = Some t -> Forall (Forall (Forall (fun x => 0 <= x))) t.
Proof.
  unfold mse_loss_fn. intros H.
  eapply tensor3_zip_Forall; [| apply all_entries | apply all_entries | exact H].
  intros a b _ _. change (0 <= Rsqr (a - b)). apply Rle_0_sqr.
Qed.

Lemma loss_latent_component m gc gfd gl mask preds l :
  loss m gc gfd gl mask preds = Some l ->
  curve_latent_loss_term (curve_latent preds) gl mask = Some (curve_latent_loss l).
Proof.
  unfold loss. intros H.
  destruct (segment_mse_loss_term _ _ _); [|discriminate]. cbn [bind] in H.
  destruct (col_diff_ce_loss_term _ _ _ _ _); [|discriminate]. cbn [bind] in H.
  destruct (row_diff_ce_loss_term _ _ _ _); [|discriminate]. cbn [bind] in H.
  destruct (curve_latent_loss_term _ _ _); [|discriminate]. cbn [bind] in H.
  injection H as <-. reflexivity.
Qed.

(** X12.  Whenever [loss] returns, on a mask with at least one valid
    position, the segment-regression and latent-regression components are
    non-negative. *)
Theorem regression_losses_nonnegative :
  forall (m : Model) (gt_segment_coords : Tensor3) (gt_flag_diffs : FlagDiffs)
         (gt_curve_latent : Tensor3) (xs_mask : Mask) (preds : Preds) (l : Losses),
    (1 <= count_valid xs_mask)%nat ->
    loss m gt_segment_coords gt_flag_diffs gt_curve_latent xs_mask preds = Some l ->
    0 <= segment_mse_loss l /\ 0 <= curve_latent_loss l.
Proof.
  intros m gc gfd gl mask preds l _ Hl. split.
  - apply loss_segment_component in Hl. unfold segment_mse_loss_term in Hl.
    apply bind_some in Hl. destruct Hl as [t [Ht Hl]].
    apply bind_some in Hl. destruct Hl as [sel [Hsel Hl]].
    injection Hl as <-. apply Rmean_nonneg.
    eapply select3_Forall; [|exact Hsel]. eapply mse_nonneg; eauto.
  - apply loss_latent_component in Hl. rewrite mu_weights_of_used in Hl.
    apply bind_some in Hl. destruct Hl as [t [Ht Hl]].
    apply bind_some in Hl. destruct Hl as [w [Hw Hl]].
    apply bind_some in Hl. destruct Hl as [sel [Hsel Hl]].
    injection Hl as <-. apply Rmean_nonneg.
    eapply select3_Forall; [|exact Hsel].
    eapply tensor3_zip_Forall; [| apply mu_weights_bounds | eapply mse_nonneg; eauto
                               | exact Hw].
    intros a b Ha Hb. cbv beta in *. nra.
Qed.

Lemma scenario_loss_succeeds :
  exists l,
    loss (init scenario_config toy_net)
      (map (map (firstn 6)) scenario_xs) scenario_flag_diffs
      (map (map (skipn 6)) scenario_xs) (xs_mask_of scenario_flag_diffs)
      scenario_preds
    = Some l.
Proof. eexists. reflexivity. Qed.

Lemma regression_losses_nonnegative_witness :
  exists l,
    loss (init scenario_config toy_net)
      (map (map (firstn 6)) scenario_xs) scenario_flag_diffs
      (map (map (skipn 6)) scenario_xs) (xs_mask_of scenario_flag_diffs)
      scenario_preds
    = Some l /\ 0 <= segment_mse_loss l /\ 0 <= curve_latent_loss l.
Proof.
  destruct scenario_loss_succeeds as [l Hl].
  exists l. split; [exact Hl|].
  refine (@regression_losses_nonnegative _ _ _ _ _ _ l _ Hl).
  apply (proj1 (Nat.leb_le 1 _)). reflexivity.
Defined.

Lemma forward_predictions_skip_loss_witness :
  loss toy_model [] toy_flag_diffs [] (xs_mask_of toy_flag_diffs) toy_preds = None /\
  forward toy_model [] toy_flag_diffs false false None true
  = Some (PredsTuple toy_preds).
Proof.
  split; [reflexivity|].
  apply (@forward_predictions_skip_loss toy_model [] toy_flag_diffs false false true
           None toy_posterior [[[2]]] toy_preds eq_refl eq_refl eq_refl).
  now left.
Defined.

Lemma forward_predictions_ignore_spread_channels_witness :
  forward toy_model toy_xs toy_flag_diffs false true None false
  = forward toy_model [[repeat 1 18 ++ repeat 7 12; repeat 3 18 ++ repeat 9 12]]
      toy_flag_diffs false true None false.
Proof.
  apply forward_predictions_ignore_spread_channels; [reflexivity | now right].
Defined.

(** ** Offsets and the encoder's embedding tables *)

Lemma embedding_index_ok_spec n i :
  embedding_index_ok n i = true <-> (0 <= i < Z.of_nat n)%Z.
Proof.
  unfold embedding_index_ok. rewrite andb_true_iff, Z.leb_le, Z.ltb_lt. tauto.
Qed.

Lemma offsets_in_tables_spec c d :
  offsets_in_tables (Shape.encoder_of c) d = true <->
  (0 <= col_diff d < 6)%Z /\ (0 <= row_diff d < 32)%Z.
Proof.
  unfold offsets_in_tables.
  rewrite andb_true_iff, !embedding_index_ok_spec. reflexivity.
Qed.

Lemma zero_where_offsets_ok c item :
  Forall (fun d => is_valid d = true ->
                   (0 <= col_diff d < 6)%Z /\ (0 <= row_diff d < 32)%Z) item ->
  forallb (offsets_in_tables (Shape.encoder_of c))
          (zero_where zero_offsets (map is_valid item) item) = true.
Proof.
  induction 1 as [|d item Hd _ IH]; [reflexivity|].
  cbn [map zero_where forallb]. rewrite IH, andb_true_r.
  destruct (is_valid d) eqn:E.
  - apply offsets_in_tables_spec. auto.
  - reflexivity.
Qed.

Lemma embeds_offsets_spec c flag_diffs :
  Encoder1D_embeds_offsets (Shape.encoder_of c) flag_diffs = true <->
  Forall (Forall (fun d => (0 <= col_diff d < 6)%Z /\ (0 <= row_diff d < 32)%Z))
         flag_diffs.
Proof.
  unfold Encoder1D_embeds_offsets.
  rewrite forallb_forall, Forall_forall. split.
  - intros H item Hi. specialize (H item Hi).
    rewrite forallb_forall in H. apply Forall_forall. intros d Hd.
    apply (offsets_in_tables_spec c). auto.
  - intros H item Hi. specialize (H item Hi).
    rewrite Forall_forall in H. apply forallb_forall. intros d Hd.
    apply (offsets_in_tables_spec c). auto.
Qed.

Lemma embeds_offsets_zeroed c flag_diffs :
  Forall (Forall (fun d => is_valid d = true ->
                           (0 <= col_diff d < 6)%Z /\ (0 <= row_diff d < 32)%Z))
         flag_diffs ->
  Encoder1D_embeds_offsets (Shape.encoder_of c)
    (zero_invalid zero_offsets (xs_mask_of flag_diffs) flag_diffs) = true.
Proof.
  unfold Encoder1D_embeds_offsets, xs_mask_of.
  induction 1 as [|item fds Hitem _ IH]; [reflexivity|].
  cbn [map zero_invalid forallb]. rewrite IH, andb_true_r.
  now apply zero_where_offsets_ok.
Qed.

Lemma zero_where_length {A : Type} (z : A -> A) m l :
  List.length (zero_where z m l) = List.length l.
Proof.
  revert l. induction m as [|b m IH]; intros [|a l]; simpl; auto.
Qed.

Lemma zero_invalid_shape {A : Type} (z : A -> A) b n mask (t : list (list A)) :
  has_shape2 b n t -> has_shape2 b n (zero_invalid z mask t).
Proof.
  intros [Hl Hf]. subst b. revert mask.
  induction Hf as [|item t Hitem Hf IH]; intros mask.
  - destruct mask; split; auto.
  - destruct mask as [|mb rest]; [split; [reflexivity | now constructor]|].
    destruct (IH rest) as [Hl' Hf']. cbn [zero_invalid]. split.
    + simpl. now rewrite Hl'.
    + constructor; [now rewrite zero_where_length | exact Hf'].
Qed.

(** X13.  The offset look-ups of the encoder use tables of 6 and 32 rows
    whatever [max_col_diff] and [max_row_diff] are configured, and they are
    applied to every position, padded ones included: on a non-empty batch
    padded to [max_curves_num] segments, [encode] succeeds exactly when
    every column offset lies in [0, 6) and every row offset in [0, 32);
    zeroing the offsets of the invalid positions makes [encode] succeed as
    soon as the valid positions are in range. *)
Theorem encoder_offset_tables_ignore_config :
  forall (c : Config) (B : nat) (flag_diffs : FlagDiffs),
    (1 <= B)%nat ->
    has_shape2 B (max_curves_num c) flag_diffs ->
    let xs := [B; max_curves_num c; 18%nat] in
    let p := {| Shape.mean_shape := [B; latent_channels c; wireframe_latent_num c];
                Shape.logvar_shape := [B; latent_channels c; wireframe_latent_num c] |} in
    (encode_with_offsets c xs flag_diffs = Some p <->
     Forall (Forall (fun d => (0 <= col_diff d < 6)%Z /\ (0 <= row_diff d < 32)%Z))
            flag_diffs) /\
    (encode_with_offsets c xs flag_diffs = None <->
     Encoder1D_embeds_offsets (Shape.encoder_of c) flag_diffs = false) /\
    (Forall (Forall (fun d => is_valid d = true ->
                              (0 <= col_diff d < 6)%Z /\ (0 <= row_diff d < 32)%Z))
            flag_diffs ->
     encode_with_offsets c xs
       (zero_invalid zero_offsets (xs_mask_of flag_diffs) flag_diffs) = Some p).
Proof.
  intros c B fds HB Hsh xs p.
  assert (Hok : forall fds',
             has_shape2 B (max_curves_num c) fds' ->
             Encoder1D_embeds_offsets (Shape.encoder_of c) fds' = true ->
             encode_with_offsets c xs fds' = Some p).
  { intros fds' Hsh' He. unfold encode_with_offsets.
    rewrite (@offsets_shape_some c B (max_curves_num c) fds' HB Hsh' He). cbn [bind].
    now apply encode_shape. }
  assert (Hko : Encoder1D_embeds_offsets (Shape.encoder_of c) fds = false ->
                encode_with_offsets c xs fds = None).
  { intros He. unfold encode_with_offsets. now rewrite offsets_shape_none. }
  split; [|split].
  - rewrite <- (embeds_offsets_spec c). split.
    + intros H.
      destruct (Encoder1D_embeds_offsets (Shape.encoder_of c) fds) eqn:E;
        [reflexivity|].
      rewrite Hko in H by reflexivity. discriminate.
    + intros He. now apply Hok.
  - split.
    + intros H.
      destruct (Encoder1D_embeds_offsets (Shape.encoder_of c) fds) eqn:E;
        [|reflexivity].
      rewrite (Hok fds Hsh E) in H. discriminate.
    + exact Hko.
  - intros Hv. apply Hok.
    + now apply zero_invalid_shape.
    + now apply embeds_offsets_zeroed.
Qed.

Lemma encoder_offset_tables_ignore_config_witness :
  (max_col_diff wide_col_config = 8)%nat /\
  encode_with_offsets wide_col_config [2; 4; 18]%nat
    [ [fd 1 7 0; fd 1 0 0; fd 0 0 0; fd 0 0 0];
      [fd 1 0 0; fd 1 0 0; fd 0 0 0; fd 0 0 0] ] = None /\
  encode_with_offsets scenario_config [2; 4; 18]%nat padded_out_of_range = None /\
  encode_with_offsets scenario_config [2; 4; 18]%nat
    (zero_invalid zero_offsets (xs_mask_of padded_out_of_range) padded_out_of_range)
  = Some {| Shape.mean_shape := [2; 4; 8]%nat; Shape.logvar_shape := [2; 4; 8]%nat |}.
Proof.
  split; [reflexivity|]. split; [|split].
  - refine (proj2 (proj1 (proj2 (@encoder_offset_tables_ignore_config wide_col_config 2
             [ [fd 1 7 0; fd 1 0 0; fd 0 0 0; fd 0 0 0];
               [fd 1 0 0; fd 1 0 0; fd 0 0 0; fd 0 0 0] ] _ _))) _).
    + lia.
    + split; [reflexivity|]. repeat constructor.
    + reflexivity.
  - refine (proj2 (proj1 (proj2 (@encoder_offset_tables_ignore_config scenario_config 2
             padded_out_of_range _ _))) _).
    + lia.
    + split; [reflexivity|]. repeat constructor.
    + reflexivity.
  - refine (proj2 (proj2 (@encoder_offset_tables_ignore_config scenario_config 2
             padded_out_of_range _ _)) _).
    + lia.
    + split; [reflexivity|]. repeat constructor.
    + unfold padded_out_of_range.
      repeat (apply Forall_cons;
              [repeat (apply Forall_cons;
                       [intros Hv; try discriminate Hv; simpl; lia|]);
               apply Forall_nil|]).
      apply Forall_nil.
Defined.

(** ** The range of the classification target *)

Lemma count_true_le (l : list bool) : (count_true l <= List.length l)%nat.
Proof. unfold count_true. apply filter_length_le. Qed.

Lemma count_true_zero_iff item :
  count_true (map is_valid item) = 0%nat <-> Forall (fun d => is_valid d = false) item.
Proof.
  unfold count_true. induction item as [|d item IH]; simpl.
  - split; auto.
  - destruct (is_valid d) eqn:E; simpl.
    + split; [discriminate|]. intros H. inversion H; congruence.
    + rewrite IH. split; intros H; [now constructor | now inversion H].
Qed.

(** X14.  For a batch item whose flags are bits, the classification target
    lies between -1 and the number of segment slots minus one, and it is -1,
    outside the class range, exactly when the item has no valid segment. *)
Theorem cls_target_range :
  forall (gt_flag_diffs : FlagDiffs) (i : nat) (item : list FlagDiff) (t : Z),
    nth_error gt_flag_diffs i = Some item ->
    binary_flags item ->
    nth_error (cls_target gt_flag_diffs) i = Some t ->
    (-1 <= t < Z.of_nat (List.length item))%Z /\
    (t = (-1)%Z <-> Forall (fun d => is_valid d = false) item).
Proof.
  intros gfd i item t Hi Hb Ht. unfold cls_target in Ht.
  rewrite nth_error_map, Hi in Ht. injection Ht as <-.
  rewrite (sum_flags_counts_valid Hb).
  pose proof (count_true_le (map is_valid item)) as Hle.
  rewrite length_map in Hle. split; [lia|].
  rewrite <- count_true_zero_iff. lia.
Qed.

Lemma cls_target_range_witness :
  (-1 <= -1 < 2)%Z /\
  ((-1)%Z = (-1)%Z <-> Forall (fun d => is_valid d = false) [fd 0 3 4; fd 0 0 0]).
Proof.
  apply (@cls_target_range [[fd 0 3 4; fd 0 0 0]] 0 [fd 0 3 4; fd 0 0 0] (-1)).
  - reflexivity.
  - unfold binary_flags.
    repeat (apply Forall_cons; [simpl; auto|]). apply Forall_nil.
  - reflexivity.
Defined.

(** ** The sign of the KL term *)






(** ** The channel axis of the fast decoder's input *)

(** X17.  [AutoencoderKLWireframeFastDecode.forward] succeeds only on an
    input whose last axis has [latent_channels] entries: with the default 8
    channels an input of width 16 is rejected. *)
Theorem fast_decode_forward_requires_latent_channels :
  forall (c : Config) (B n d : nat) (return_dict : bool)
         (r : Shape.fast_decode_result),
    Shape.FastDecode_forward c [B; n; d] return_dict = Some r ->
    d = latent_channels c.
Proof.
  intros c B n d rd r H. unfold Shape.FastDecode_forward in H.
  cbn [Shape.swap_last_two bind] in H.
  apply bind_some in H. destruct H as [dec [H _]].
  unfold Shape.decode, Shape._decode in H. cbn [Shape.swap_last_two bind] in H.
  apply bind_some in H. destruct H as [zs [H _]].
  now apply linear_rank3_inv in H.
Qed.

Lemma fast_decode_forward_requires_latent_channels_witness :
  Shape.FastDecode_forward default_config [1; 64; 16]%nat true = None /\
  Shape.FastDecode_forward default_config [1; 64; 8]%nat false
  = Some (Shape.TupleOfDec [1; 129; 512]%nat) /\
  8%nat = latent_channels default_config.
Proof.
  assert (H : Shape.FastDecode_forward default_config [1; 64; 8]%nat false
              = Some (Shape.TupleOfDec [1; 129; 512]%nat)).
  { unfold Shape.FastDecode_forward. cbn [Shape.swap_last_two bind].
    rewrite default_config_decode. cbn [bind].
    unfold Shape.predict. cbn [use_mlp_predict default_config].
    rewrite default_config_linear_predict. reflexivity. }
  split; [|split; [exact H|]].
  - unfold Shape.FastDecode_forward. cbn [Shape.swap_last_two bind].
    unfold Shape.decode, Shape._decode. cbn [Shape.swap_last_two bind].
    rewrite linear_rank3_none; [reflexivity | discriminate].
  - exact (@fast_decode_forward_requires_latent_channels _ _ _ _ _ _ H).
Defined.

(** ** The latent-regression term on well-shaped inputs *)

Lemma valid_entries_item_select {A : Type} c (tb : list (list A)) mb :
  Forall (fun r => List.length r = c) tb ->
  List.length tb = List.length mb ->
  select2 tb (map (fun b => repeat b c) mb) = Some (valid_entries_item tb mb) /\
  List.length (valid_entries_item tb mb) = (c * count_true mb)%nat.
Proof.
  intros Ht. revert mb.
  induction Ht as [|r tb Hr Ht IH]; intros mb Hlen.
  - destruct mb; [|discriminate]. split; [reflexivity|].
    unfold count_true. simpl. lia.
  - destruct mb as [|b mb]; [discriminate|]. injection Hlen as Hlen.
    destruct (IH mb Hlen) as [Hs Hl]. split.
    + unfold select2 in *. cbn [map select_with].
      rewrite <- Hr at 1. rewrite select1_uniform. cbn [bind]. rewrite Hs.
      reflexivity.
    + cbn [valid_entries_item]. rewrite length_app, Hl.
      unfold count_true. destruct b; simpl.
      * rewrite Hr. fold (count_true mb). lia.
      * reflexivity.
Qed.

Lemma valid_entries_select {A : Type} n c (t : list (list (list A))) (mask : Mask) :
  Forall (has_shape2 n c) t ->
  Forall (fun mb => List.length mb = n) mask ->
  List.length t = List.length mask ->
  select3 t (repeat_mask c mask) = Some (valid_entries t mask) /\
  List.length (valid_entries t mask) = (c * count_valid mask)%nat.
Proof.
  intros Ht. revert mask.
  induction Ht as [|tb t [Hlt Hrt] Ht IH]; intros mask Hm Hlen.
  - destruct mask; [|discriminate]. split; [reflexivity|].
    unfold count_valid. simpl. lia.
  - destruct mask as [|mb mask]; [discriminate|].
    inversion Hm as [|? ? Hlm Hm']; subst. injection Hlen as Hlen.
    destruct (IH mask Hm' Hlen) as [Hs Hl].
    destruct (@valid_entries_item_select A c tb mb Hrt) as [Hsi Hli];
      [congruence|].
    split.
    + unfold select3, repeat_mask in *. cbn [map select_with].
      rewrite Hsi. cbn [bind]. rewrite Hs. reflexivity.
    + cbn [valid_entries]. rewrite length_app, Hl, Hli.
      unfold count_valid. simpl. lia.
Qed.

(** X15.  Latent regression on inputs of consistent shape: for predicted
    latents of shape (B, N, 12), ground-truth latents of shape (B, N, 24)
    and a mask of shape (B, N) with at least one valid position, the
    squared errors against the first twelve ground-truth channels and
    their products with the weights are defined, and the latent-regression
    component is the sum of the weighted errors of the valid positions
    divided by their number, which is twelve times the number of valid
    positions and is not zero. *)
Theorem latent_loss_is_mean_over_valid :
  forall (m : Model) (B N : nat) (preds : Preds) (gt_curve_latent : Tensor3)
         (xs_mask : Mask),
    has_shape3 B N 12 (curve_latent preds) ->
    has_shape3 B N 24 gt_curve_latent ->
    has_shape2 B N xs_mask ->
    (1 <= count_valid xs_mask)%nat ->
    exists mse weighted,
      mse_loss_fn (curve_latent preds) (map (map (firstn 12)) gt_curve_latent)
      = Some mse /\
      tensor3_zip Rmult (mu_weights_of gt_curve_latent) mse = Some weighted /\
      List.length (valid_entries weighted xs_mask) = (12 * count_valid xs_mask)%nat /\
      0 < INR (List.length (valid_entries weighted xs_mask)) /\
      curve_latent_loss_term (curve_latent preds) gt_curve_latent xs_mask
      = Some (Rsum (valid_entries weighted xs_mask) / INR (12 * count_valid xs_mask)) /\
      (forall gt_segment_coords gt_flag_diffs l,
          loss m gt_segment_coords gt_flag_diffs gt_curve_latent xs_mask preds = Some l ->
          curve_latent_loss l
          = Rsum (valid_entries weighted xs_mask) / INR (12 * count_valid xs_mask)).
Proof.
  intros m B N preds gl mask Hlat Hgl Hmask Hcv.
  destruct (@tensor3_zip_shape _ _ _ (fun a b => (a - b) * (a - b)) B N 12
              (curve_latent preds) (map (map (firstn 12)) gl)) as [mse [Hmse Hsh]];
    auto.
  { revert Hgl. apply rows_map_shape. intros row H.
    rewrite length_firstn, H. reflexivity. }
  destruct (@tensor3_zip_shape _ _ _ Rmult B N 12 (mu_weights_of gl) mse)
    as [w [Hw Hwsh]]; auto.
  { unfold mu_weights_of. do 2 apply tensor3_map_shape. revert Hgl.
    apply rows_map_shape. intros row H. rewrite length_skipn, H. reflexivity. }
  destruct Hwsh as [Hlw Hfw]. destruct Hmask as [Hlm Hfm].
  destruct (@valid_entries_select R N 12 w mask Hfw Hfm) as [Hsel Hlen];
    [congruence|].
  assert (Hterm : curve_latent_loss_term (curve_latent preds) gl mask
                  = Some (Rsum (valid_entries w mask) / INR (12 * count_valid mask))).
  { unfold curve_latent_loss_term. fold (mu_weights_of gl).
    unfold mse_loss_fn in Hmse |- *. rewrite Hmse. cbn [bind]. rewrite Hw. cbn [bind].
    rewrite Hsel. cbn [bind]. unfold Rmean. rewrite Hlen. reflexivity. }
  exists mse, w.
  split; [exact Hmse|]. split; [exact Hw|]. split; [exact Hlen|].
  split; [|split; [exact Hterm|]].
  - rewrite Hlen. apply lt_0_INR. lia.
  - intros gc gfd l Hl. apply loss_latent_component in Hl.
    rewrite Hterm in Hl. now injection Hl as <-.
Qed.

Lemma latent_loss_is_mean_over_valid_witness :
  exists weighted,
    List.length (valid_entries weighted (xs_mask_of scenario_flag_diffs)) = 60%nat /\
    curve_latent_loss_term (curve_latent scenario_preds)
      (map (map (skipn 6)) scenario_xs) (xs_mask_of scenario_flag_diffs)
    = Some (Rsum (valid_entries weighted (xs_mask_of scenario_flag_diffs)) / INR 60).
Proof.
  destruct (@latent_loss_is_mean_over_valid toy_model 2 4 scenario_preds
              (map (map (skipn 6)) scenario_xs) (xs_mask_of scenario_flag_diffs))
    as [mse [w [_ [_ [Hlen [_ [Hterm _]]]]]]].
  - shape_of_literal.
  - shape_of_literal.
  - shape_of_literal.
  - apply (proj1 (Nat.leb_le 1 _)). reflexivity.
  - exists w. split; [exact Hlen | exact Hterm].
Defined.
